(** * Emulated camera sensor (fake-pipeline2/Sensor.cpp)

    A shallow embedding of the sensor capture loop of the emulated camera:
    the numeric utility [sqrtf_approx], the per-pixel gain / saturation /
    noise model, the control and synchronisation surface of [Sensor], and the
    capture loop [threadLoop] itself, followed by the properties of the
    design document that concern them.

    Conventions.
    - Fixed-width integers are [Z] with the wrap-around written out
      ([wrap_u16], [wrap_u32], [wrap_u64], [wrap_s32], [wrap_s64]).
    - [float] and [double] are IEEE-754 binary32 / binary64, computed with the
      executable specification of the standard library ([SpecFloat]).
    - Pointers are addresses in [Z]; [NULL] is address 0.
    - What the capture thread cannot decide by itself (the wall clock, the
      C library's random numbers, the scene) is read from a [World] of
      oracles, threaded through the loop.
    - The observable actions of one loop iteration are returned as a list of
      [event]s, in program order. *)

From Stdlib Require Import ZArith List Bool Lia.
From Stdlib Require Import Reals Lra.
From Stdlib Require Import SpecFloat.
Import ListNotations.
Local Open Scope Z_scope.

(* ================================================================= *)
(** ** Fixed-width integers *)

Definition wrap_u16 (z : Z) : Z := z mod 2 ^ 16.
Definition wrap_u32 (z : Z) : Z := z mod 2 ^ 32.
Definition wrap_u64 (z : Z) : Z := z mod 2 ^ 64.
Definition wrap_s32 (z : Z) : Z := (z + 2 ^ 31) mod 2 ^ 32 - 2 ^ 31.
(** [nsecs_t] is [int64_t]. *)
Definition wrap_s64 (z : Z) : Z := (z + 2 ^ 63) mod 2 ^ 64 - 2 ^ 63.

(* ================================================================= *)
(** ** Floating point: binary32 ([float]) and binary64 ([double]) *)

Definition f32_mul : spec_float -> spec_float -> spec_float := SFmul 24 128.
Definition f32_add : spec_float -> spec_float -> spec_float := SFadd 24 128.
Definition f32_div : spec_float -> spec_float -> spec_float := SFdiv 24 128.
Definition f64_mul : spec_float -> spec_float -> spec_float := SFmul 53 1024.
Definition f64_add : spec_float -> spec_float -> spec_float := SFadd 53 1024.
Definition f64_sub : spec_float -> spec_float -> spec_float := SFsub 53 1024.
Definition f64_div : spec_float -> spec_float -> spec_float := SFdiv 53 1024.

(** Integer to floating point, round to nearest even. *)
Definition f32_of_Z (z : Z) : spec_float := binary_normalize 24 128 z 0 false.
Definition f64_of_Z (z : Z) : spec_float := binary_normalize 53 1024 z 0 false.

(** [double] to [float] (rounding) and [float] to [double] (exact). *)
Definition f32_of_f64 (x : spec_float) : spec_float :=
  match x with
  | S754_finite s m e => binary_round 24 128 s m e
  | _ => x
  end.

Definition f64_of_f32 (x : spec_float) : spec_float :=
  match x with
  | S754_finite s m e => binary_round 53 1024 s m e
  | _ => x
  end.

(** A decimal literal [n / d] of type [double]: the correctly rounded
    quotient of two exactly representable integers. *)
Definition f64_lit (n d : Z) : spec_float := f64_div (f64_of_Z n) (f64_of_Z d).

(** A decimal literal [n / d] with the suffix [f], of type [float]. *)
Definition f32_lit (n d : Z) : spec_float := f32_div (f32_of_Z n) (f32_of_Z d).

(** Floating point to integer: the fractional part is discarded. *)
Definition f_trunc (x : spec_float) : Z :=
  match x with
  | S754_finite s m e =>
      let a := if 0 <=? e then Zpos m * 2 ^ e else Zpos m / 2 ^ (- e) in
      if s then - a else a
  | _ => 0
  end.

(** Conversion of a [float] to [uint16_t].  C++ leaves the conversion of a
    value outside [0, 65535] undefined; the model follows the usual lowering,
    which converts to a wider integer and keeps the low 16 bits. *)
Definition u16_of_f32 (x : spec_float) : Z := wrap_u16 (f_trunc x).

(** The binary32 bit pattern of a [float], as the [int32_t] that
    [*(int32_t* )(&r)] reads, and back. *)
Definition f32_bits_unsigned (x : spec_float) : Z :=
  match x with
  | S754_zero s => if s then 2 ^ 31 else 0
  | S754_infinity s => (if s then 2 ^ 31 else 0) + 255 * 2 ^ 23
  | S754_nan => 255 * 2 ^ 23 + 2 ^ 22
  | S754_finite s m e =>
      (if s then 2 ^ 31 else 0) +
      (if 2 ^ 23 <=? Zpos m
       then (e + 150) * 2 ^ 23 + (Zpos m - 2 ^ 23)
       else Zpos m)
  end.

Definition bits_of_f32 (x : spec_float) : Z := wrap_s32 (f32_bits_unsigned x).

Definition f32_of_bits (b : Z) : spec_float :=
  let u := wrap_u32 b in
  let s := 2 ^ 31 <=? u in
  let E := (u / 2 ^ 23) mod 256 in
  let M := u mod 2 ^ 23 in
  if E =? 0 then
    match M with
    | Zpos m => S754_finite s m (-149)
    | _ => S754_zero s
    end
  else if E =? 255 then
    (if M =? 0 then S754_infinity s else S754_nan)
  else
    match M + 2 ^ 23 with
    | Zpos m => S754_finite s m (E - 150)
    | _ => S754_nan
    end.

(** Positive normal binary32 numbers: 24 significant bits, biased exponent
    in 1..254. *)
Definition f32_pos_normal (x : spec_float) : bool :=
  match x with
  | S754_finite false m e =>
      (2 ^ 23 <=? Zpos m) && (Zpos m <? 2 ^ 24) && (-149 <=? e) && (e <=? 104)
  | _ => false
  end.

(** The real number a finite float denotes. *)
Definition SF2R (x : spec_float) : R :=
  match x with
  | S754_finite s m e =>
      ((if s then -1 else 1) * IZR (Zpos m) * powerRZ 2 e)%R
  | _ => 0%R
  end.

(* ================================================================= *)
(** ** Constants of [Sensor] *)

Definition NULL : Z := 0.

Definition kResolution : Z * Z := (640, 480).
Definition kExposureTimeRange : Z * Z := (1000, 30000000000).
Definition kFrameDurationRange : Z * Z := (33331760, 30000000000).
Definition kMinVerticalBlank : Z := 10000.

Definition kMaxRawValue : Z := 4000.
Definition kBlackLevel : Z := 1000.

Definition kSaturationVoltage : spec_float := f32_lit 520 1000.
Definition kSaturationElectrons : Z := 2000.
Definition kVoltsPerLuxSecond : spec_float := f32_lit 100 1000.

Definition kElectronsPerLuxSecond : spec_float :=
  f32_mul (f32_div (f32_of_Z kSaturationElectrons) kSaturationVoltage)
          kVoltsPerLuxSecond.

Definition kBaseGainFactor : spec_float :=
  f32_div (f32_of_Z kMaxRawValue) (f32_of_Z kSaturationElectrons).

Definition kReadNoiseStddevBeforeGain : spec_float :=
  f32_of_f64 (f64_lit 1177 1000).
Definition kReadNoiseStddevAfterGain : spec_float :=
  f32_of_f64 (f64_lit 2100 1000).
Definition kReadNoiseVarBeforeGain : spec_float :=
  f32_mul kReadNoiseStddevBeforeGain kReadNoiseStddevBeforeGain.
Definition kReadNoiseVarAfterGain : spec_float :=
  f32_mul kReadNoiseStddevAfterGain kReadNoiseStddevAfterGain.

Definition kRowReadoutTime : Z :=
  Z.quot (fst kFrameDurationRange) (snd kResolution).

Definition kAvailableSensitivities : list Z := [100; 200; 400; 800; 1600].
Definition kDefaultSensitivity : Z := 100.

(** [status_t] values of the platform ([utils/Errors.h]). *)
Definition OK : Z := 0.
Definition TIMED_OUT : Z := -110.

(* ================================================================= *)
(** ** The approximate square root *)

Definition modifier : Z := 0x1FBB4000.

Definition sqrtf_approx (r : spec_float) : spec_float :=
  let r_i := bits_of_f32 r in
  let r_i := wrap_s32 (Z.shiftr r_i 1 + modifier) in
  f32_of_bits r_i.

(* ================================================================= *)
(** ** The per-pixel model (render stage, lines 272-302) *)

(** [float totalGain = gain/100.0 * kBaseGainFactor] : the quotient and the
    product are computed in [double], the result is stored as [float]. *)
Definition totalGain_of (gain : Z) : spec_float :=
  f32_of_f64
    (f64_mul (f64_div (f64_of_Z gain) (f64_lit 100 1))
             (f64_of_f32 kBaseGainFactor)).

Definition noiseVarGain_of (totalGain : spec_float) : spec_float :=
  f32_mul totalGain totalGain.

Definition readNoiseVar_of (noiseVarGain : spec_float) : spec_float :=
  f32_add (f32_mul kReadNoiseVarBeforeGain noiseVarGain) kReadNoiseVarAfterGain.

(** Pixel saturation: [electronCount] is capped at [kSaturationElectrons]. *)
Definition saturate (electronCount : Z) : Z :=
  if electronCount <? kSaturationElectrons
  then electronCount else kSaturationElectrons.

(** [uint16_t rawCount = electronCount * totalGain], before the A/D clamp. *)
Definition rawCountConverted (totalGain : spec_float) (electronCount : Z) : Z :=
  u16_of_f32 (f32_mul (f32_of_Z electronCount) totalGain).

(** A/D saturation: [rawCount] is capped at [kMaxRawValue]. *)
Definition clampRaw (rawCount : Z) : Z :=
  if rawCount <? kMaxRawValue then rawCount else kMaxRawValue.

(** [rawCount] after the A/D clamp (line 292), for a pixel whose scene
    electron count is [electrons]. *)
Definition rawCountClamped (totalGain : spec_float) (electrons : Z) : Z :=
  clampRaw (rawCountConverted totalGain (saturate electrons)).

(** [rawCount] after [rawCount += kBlackLevel] (line 301): the value the
    noise term is then added to. *)
Definition rawCountPreNoise (totalGain : spec_float) (electrons : Z) : Z :=
  wrap_u16 (rawCountClamped totalGain electrons + kBlackLevel).

(** The argument of [sqrtf_approx] on line 297. *)
Definition noiseVariance (totalGain : spec_float) (electrons : Z) : spec_float :=
  let noiseVarGain := noiseVarGain_of totalGain in
  let photonNoiseVar := f32_mul (f32_of_Z (saturate electrons)) noiseVarGain in
  f32_add (readNoiseVar_of noiseVarGain) photonNoiseVar.

(** [std::rand() * (2.5 / (1.0 + RAND_MAX)) - 1.25], computed in [double] and
    stored as [float]. *)
Definition noiseSample_of (rand_max r : Z) : spec_float :=
  f32_of_f64
    (f64_sub
       (f64_mul (f64_of_Z r)
                (f64_div (f64_lit 25 10)
                         (f64_add (f64_lit 1 1) (f64_of_Z rand_max))))
       (f64_lit 125 100)).

(** The sample written to the buffer (line 304), given the scene's electron
    count for the pixel and the value [r] drawn from [std::rand()]. *)
Definition pixelValue (totalGain : spec_float) (rand_max : Z)
    (electrons r : Z) : Z :=
  let noiseStddev := sqrtf_approx (noiseVariance totalGain electrons) in
  let noiseSample := noiseSample_of rand_max r in
  let rawCount := rawCountPreNoise totalGain electrons in
  u16_of_f32 (f32_add (f32_of_Z rawCount) (f32_mul noiseStddev noiseSample)).

(* ================================================================= *)
(** ** The sensor object *)

Record Sensor := mkSensor {
  (* guarded by mControlMutex *)
  mGotVSync : bool;
  mExposureTime : Z;        (* uint64_t *)
  mFrameDuration : Z;       (* uint64_t *)
  mGainFactor : Z;          (* uint32_t *)
  mNextBuffer : Z;          (* uint8_t* *)
  mNextStride : Z;          (* uint32_t *)
  (* guarded by mReadoutMutex: the handoff slot *)
  mCapturedBuffer : Z;      (* uint8_t* *)
  mCaptureTime : Z;         (* nsecs_t *)
  (* private to the capture thread *)
  mStartupTime : Z;         (* nsecs_t *)
  mNextCaptureTime : Z;     (* nsecs_t *)
  mNextCapturedBuffer : Z   (* uint8_t* *)
}.

Definition set_mGotVSync (v : bool) (s : Sensor) : Sensor :=
  mkSensor v (mExposureTime s) (mFrameDuration s) (mGainFactor s)
    (mNextBuffer s) (mNextStride s) (mCapturedBuffer s) (mCaptureTime s)
    (mStartupTime s) (mNextCaptureTime s) (mNextCapturedBuffer s).
Definition set_mExposureTime (v : Z) (s : Sensor) : Sensor :=
  mkSensor (mGotVSync s) v (mFrameDuration s) (mGainFactor s)
    (mNextBuffer s) (mNextStride s) (mCapturedBuffer s) (mCaptureTime s)
    (mStartupTime s) (mNextCaptureTime s) (mNextCapturedBuffer s).
Definition set_mFrameDuration (v : Z) (s : Sensor) : Sensor :=
  mkSensor (mGotVSync s) (mExposureTime s) v (mGainFactor s)
    (mNextBuffer s) (mNextStride s) (mCapturedBuffer s) (mCaptureTime s)
    (mStartupTime s) (mNextCaptureTime s) (mNextCapturedBuffer s).
Definition set_mGainFactor (v : Z) (s : Sensor) : Sensor :=
  mkSensor (mGotVSync s) (mExposureTime s) (mFrameDuration s) v
    (mNextBuffer s) (mNextStride s) (mCapturedBuffer s) (mCaptureTime s)
    (mStartupTime s) (mNextCaptureTime s) (mNextCapturedBuffer s).
Definition set_mNextBuffer (v : Z) (s : Sensor) : Sensor :=
  mkSensor (mGotVSync s) (mExposureTime s) (mFrameDuration s) (mGainFactor s)
    v (mNextStride s) (mCapturedBuffer s) (mCaptureTime s)
    (mStartupTime s) (mNextCaptureTime s) (mNextCapturedBuffer s).
Definition set_mNextStride (v : Z) (s : Sensor) : Sensor :=
  mkSensor (mGotVSync s) (mExposureTime s) (mFrameDuration s) (mGainFactor s)
    (mNextBuffer s) v (mCapturedBuffer s) (mCaptureTime s)
    (mStartupTime s) (mNextCaptureTime s) (mNextCapturedBuffer s).
Definition set_mCapturedBuffer (v : Z) (s : Sensor) : Sensor :=
  mkSensor (mGotVSync s) (mExposureTime s) (mFrameDuration s) (mGainFactor s)
    (mNextBuffer s) (mNextStride s) v (mCaptureTime s)
    (mStartupTime s) (mNextCaptureTime s) (mNextCapturedBuffer s).
Definition set_mCaptureTime (v : Z) (s : Sensor) : Sensor :=
  mkSensor (mGotVSync s) (mExposureTime s) (mFrameDuration s) (mGainFactor s)
    (mNextBuffer s) (mNextStride s) (mCapturedBuffer s) v
    (mStartupTime s) (mNextCaptureTime s) (mNextCapturedBuffer s).
Definition set_mStartupTime (v : Z) (s : Sensor) : Sensor :=
  mkSensor (mGotVSync s) (mExposureTime s) (mFrameDuration s) (mGainFactor s)
    (mNextBuffer s) (mNextStride s) (mCapturedBuffer s) (mCaptureTime s)
    v (mNextCaptureTime s) (mNextCapturedBuffer s).
Definition set_mNextCaptureTime (v : Z) (s : Sensor) : Sensor :=
  mkSensor (mGotVSync s) (mExposureTime s) (mFrameDuration s) (mGainFactor s)
    (mNextBuffer s) (mNextStride s) (mCapturedBuffer s) (mCaptureTime s)
    (mStartupTime s) v (mNextCapturedBuffer s).
Definition set_mNextCapturedBuffer (v : Z) (s : Sensor) : Sensor :=
  mkSensor (mGotVSync s) (mExposureTime s) (mFrameDuration s) (mGainFactor s)
    (mNextBuffer s) (mNextStride s) (mCapturedBuffer s) (mCaptureTime s)
    (mStartupTime s) (mNextCaptureTime s) v.

(** [Sensor::Sensor()].  [mNextStride], [mCaptureTime] and the fields that
    [readyToRun] sets are not initialised by the constructor; the model
    starts them at 0. *)
Definition Sensor_new : Sensor :=
  mkSensor false
    (fst kFrameDurationRange - kMinVerticalBlank)
    (fst kFrameDurationRange)
    kDefaultSensitivity
    NULL 0 NULL 0 0 0 NULL.

(* ================================================================= *)
(** ** The world outside the capture thread *)

Record World := mkWorld {
  clock : nat -> Z;         (* the successive results of systemTime() *)
  ticks : nat;              (* how many have been consumed *)
  rand_stream : nat -> Z;   (* the successive results of std::rand() *)
  draws : nat;              (* how many have been consumed *)
  rand_max : Z;             (* RAND_MAX of the C library *)
  (* Scene: electron count for (exposure seconds, timestamp, x, y, channel) *)
  scene : spec_float -> Z -> Z -> Z -> Z -> Z
}.

Definition systemTime (w : World) : Z * World :=
  (wrap_s64 (clock w (ticks w)),
   mkWorld (clock w) (S (ticks w)) (rand_stream w) (draws w) (rand_max w)
           (scene w)).

Definition std_rand (w : World) : Z * World :=
  (wrap_s32 (rand_stream w (draws w)),
   mkWorld (clock w) (ticks w) (rand_stream w) (S (draws w)) (rand_max w)
           (scene w)).

(** What one iteration of the capture loop does that others can observe. *)
Inductive event :=
| EvVSync                                   (* mVSync.signal() *)
| EvPixel (buffer : Z) (index : Z) (value : Z)   (* *px++ = rawCount *)
| EvReadout (buffer : Z) (captureTime : Z)  (* mReadoutComplete.signal() *)
| EvSleep (tv_sec tv_nsec : Z).             (* nanosleep until it returns 0 *)

Definition is_vsync (e : event) : bool :=
  match e with EvVSync => true | _ => false end.
Definition is_pixel (e : event) : bool :=
  match e with EvPixel _ _ _ => true | _ => false end.
Definition is_readout (e : event) : bool :=
  match e with EvReadout _ _ => true | _ => false end.
Definition is_sleep (e : event) : bool :=
  match e with EvSleep _ _ => true | _ => false end.

Definition pixel_targets (b : Z) (e : event) : bool :=
  match e with EvPixel b' _ _ => b' =? b | _ => true end.

(* ================================================================= *)
(** ** Control surface *)

Definition setExposureTime (ns : Z) (s : Sensor) : Sensor :=
  set_mExposureTime (wrap_u64 ns) s.

Definition setFrameDuration (ns : Z) (s : Sensor) : Sensor :=
  set_mFrameDuration (wrap_u64 ns) s.

Definition setSensitivity (gain : Z) (s : Sensor) : Sensor :=
  set_mGainFactor (wrap_u32 gain) s.

Definition setDestinationBuffer (buffer stride : Z) (s : Sensor) : Sensor :=
  set_mNextStride (wrap_u32 stride) (set_mNextBuffer buffer s).

(** The calls a client makes on the control surface. *)
Inductive client_call :=
| SetExposureTime (ns : Z)
| SetFrameDuration (ns : Z)
| SetSensitivity (gain : Z)
| SetDestinationBuffer (buffer stride : Z).

Definition call (c : client_call) (s : Sensor) : Sensor :=
  match c with
  | SetExposureTime ns => setExposureTime ns s
  | SetFrameDuration ns => setFrameDuration ns s
  | SetSensitivity g => setSensitivity g s
  | SetDestinationBuffer b st => setDestinationBuffer b st s
  end.

(* ================================================================= *)
(** ** Shared-state steps of the capture loop *)

(** The values stage 1 of [threadLoop] reads under [mControlMutex]. *)
Record Latched := mkLatched {
  exposureDuration : Z;
  frameDuration : Z;
  gain : Z;
  nextBuffer : Z;
  stride : Z
}.

(** Stage 1 (lines 221-235): read the control parameters, give up the
    destination buffer, raise the VSync flag. *)
Definition latch (s : Sensor) : Latched * Sensor :=
  (mkLatched (mExposureTime s) (mFrameDuration s) (mGainFactor s)
             (mNextBuffer s) (mNextStride s),
   set_mGotVSync true (set_mNextBuffer NULL s)).

(** The critical section under [mReadoutMutex] (lines 314-317, 326-329). *)
Definition publish (capturedBuffer captureTime : Z) (s : Sensor) : Sensor :=
  set_mCaptureTime captureTime (set_mCapturedBuffer capturedBuffer s).

(* ================================================================= *)
(** ** Synchronisation surface *)

(** While a caller is blocked in [Condition::waitRelative] the mutex is
    released, and other threads run their critical sections.  A wait is
    described by the status it returns and by the steps the other threads
    took before the caller owned the mutex again: critical sections of the
    capture loop and calls on the control surface (each wait has a single
    waiter, the pipeline thread that consumes the event). *)
Inductive concurrent_step :=
| LoopLatch
| LoopReadout (capturedBuffer captureTime : Z)
| Client (c : client_call).

Definition concurrent (c : concurrent_step) (s : Sensor) : Sensor :=
  match c with
  | LoopLatch => snd (latch s)
  | LoopReadout b t => publish b t s
  | Client c => call c s
  end.

Definition during (cs : list concurrent_step) (s : Sensor) : Sensor :=
  fold_left (fun s c => concurrent c s) cs s.

Definition is_latch (c : concurrent_step) : bool :=
  match c with LoopLatch => true | _ => false end.

Definition waitForVSync (reltime : Z) (res : Z) (cs : list concurrent_step)
    (s : Sensor) : bool * Sensor :=
  let s := set_mGotVSync false s in
  let s := during cs s in               (* mVSync.waitRelative *)
  if negb (res =? OK) && negb (res =? TIMED_OUT) then (false, s)
  else (mGotVSync s, s).

(** The second component is the value stored through [captureTime], if the
    call stores one. *)
Definition waitForNewFrame (reltime : Z) (res : Z) (cs : list concurrent_step)
    (s : Sensor) : bool * option Z * Sensor :=
  if mCapturedBuffer s =? NULL then
    let s := during cs s in             (* mReadoutComplete.waitRelative *)
    if res =? TIMED_OUT then (false, None, s)
    else if negb (res =? OK) || (mCapturedBuffer s =? NULL)
    then (false, None, s)
    else (true, Some (mCaptureTime s), set_mCapturedBuffer NULL s)
  else (true, Some (mCaptureTime s), set_mCapturedBuffer NULL s).

(* ================================================================= *)
(** ** The capture thread *)

Definition readyToRun (s : Sensor) (w : World) : Z * Sensor * World :=
  let '(now, w) := systemTime w in
  (OK,
   set_mNextCapturedBuffer NULL (set_mNextCaptureTime 0 (set_mStartupTime now s)),
   w).

(** [bayerRow[x & 0x1]] with [bayerRow = bayerSelect + (y & 0x1) * 2] and
    [bayerSelect = {0, 1, 2, 3}]. *)
Definition bayerChannel (x y : Z) : Z := Z.land y 1 * 2 + Z.land x 1.

(** The inner loop (lines 282-305): the [n] pixels of row [y] from column
    [x] on; [px] is the index of the row's first sample in the buffer. *)
Fixpoint renderRow (n : nat) (x y : Z) (electrons : Z -> Z -> Z -> Z)
    (totalGain : spec_float) (buffer px : Z) (w : World)
  : list event * World :=
  match n with
  | O => ([], w)
  | S n' =>
      let electronCount := wrap_u32 (electrons x y (bayerChannel x y)) in
      let '(r, w) := std_rand w in
      let rawCount := pixelValue totalGain (rand_max w) electronCount r in
      let '(evs, w) :=
        renderRow n' (x + 1) y electrons totalGain buffer px w in
      (EvPixel buffer (px + x) rawCount :: evs, w)
  end.

(** The outer loop (lines 279-320): the [n] rows from row [y] on.
    [capturedBuffer] is the frame whose readout is being awaited, handed
    over once the wall clock has passed [frameReadoutEndRealTime]; the test
    is made on every 64th row only. *)
Fixpoint renderRows (n : nat) (y : Z) (electrons : Z -> Z -> Z -> Z)
    (totalGain : spec_float) (stride frameReadoutEndRealTime : Z)
    (capturedBuffer captureTime simulatedTime : Z) (s : Sensor) (w : World)
  : Z * Sensor * World * list event :=
  match n with
  | O => (capturedBuffer, s, w, [])
  | S n' =>
      let px := wrap_u32 (y * stride) in
      let '(row, w) :=
        renderRow (Z.to_nat (fst kResolution)) 0 y electrons totalGain
                  (mNextCapturedBuffer s) px w in
      let simulatedTime := wrap_s64 (simulatedTime + kRowReadoutTime) in
      let '(due, w) :=
        if negb (capturedBuffer =? NULL) && (Z.land y 63 =? 0)
        then let '(now, w) := systemTime w in
             (frameReadoutEndRealTime <=? now, w)
        else (false, w) in
      let '(capturedBuffer, s, done) :=
        if due
        then (NULL, publish capturedBuffer captureTime s,
              [EvReadout capturedBuffer captureTime])
        else (capturedBuffer, s, []) in
      let '(capturedBuffer, s, w, evs) :=
        renderRows n' (y + 1) electrons totalGain stride
                   frameReadoutEndRealTime capturedBuffer captureTime
                   simulatedTime s w in
      (capturedBuffer, s, w, row ++ done ++ evs)
  end.

(** [(float)exposureDuration/1e9], passed as a [float]. *)
Definition exposureSeconds (exposureDuration : Z) : spec_float :=
  f32_of_f64 (f64_div (f64_of_f32 (f32_of_Z exposureDuration))
                      (f64_lit 1000000000 1)).

Definition timeAccuracy : Z := 2000000.

(** The pacing stage (lines 334-345): the [timespec] handed to [nanosleep],
    if the thread sleeps. *)
Definition pacing (frameEndRealTime workDoneRealTime : Z) : list event :=
  if workDoneRealTime <? wrap_s64 (frameEndRealTime - timeAccuracy)
  then [EvSleep
          (Z.quot (wrap_s64 (frameEndRealTime - workDoneRealTime)) 1000000000)
          (Z.rem (wrap_s64 (frameEndRealTime - workDoneRealTime)) 1000000000)]
  else [].

(** One iteration of the capture loop.  The result is the value returned to
    the thread framework ([true]: call again), the sensor and the world
    after the iteration, and the iteration's events. *)
Definition threadLoop (s : Sensor) (w : World)
  : bool * Sensor * World * list event :=
  (* Stage 1: read in latest control parameters *)
  let '(l, s) := latch s in
  (* Stage 3: read out latest captured image *)
  let '(startRealTime, w) := systemTime w in
  let simulatedTime := wrap_s64 (startRealTime - mStartupTime s) in
  let frameEndRealTime := wrap_s64 (startRealTime + frameDuration l) in
  let frameReadoutEndRealTime :=
    wrap_s64 (startRealTime + kRowReadoutTime * snd kResolution) in
  let '(capturedBuffer, captureTime) :=
    if negb (mNextCapturedBuffer s =? NULL)
    then (mNextCapturedBuffer s, mNextCaptureTime s)
    else (NULL, 0) in
  let simulatedTime :=
    wrap_s64 (simulatedTime + (kRowReadoutTime + kMinVerticalBlank)) in
  (* Stage 2: capture new image *)
  let s := set_mNextCapturedBuffer (nextBuffer l)
             (set_mNextCaptureTime simulatedTime s) in
  let '(capturedBuffer, s, w, rendered) :=
    if negb (mNextCapturedBuffer s =? NULL)
    then
      let electrons :=
        scene w (exposureSeconds (exposureDuration l)) (mNextCaptureTime s) in
      renderRows (Z.to_nat (snd kResolution)) 0 electrons
                 (totalGain_of (gain l)) (stride l) frameReadoutEndRealTime
                 capturedBuffer captureTime simulatedTime s w
    else (capturedBuffer, s, w, []) in
  (* No capture done, or finished image generation before readout *)
  let '(s, done) :=
    if negb (capturedBuffer =? NULL)
    then (publish capturedBuffer captureTime s,
          [EvReadout capturedBuffer captureTime])
    else (s, []) in
  (* Vertical blanking interval *)
  let '(workDoneRealTime, w) := systemTime w in
  let slept := pacing frameEndRealTime workDoneRealTime in
  let '(endRealTime, w) := systemTime w in
  (true, s, w, EvVSync :: rendered ++ done ++ slept).

(** The clients' calls between two iterations of the capture loop. *)
Definition calls (cs : list client_call) (s : Sensor) : Sensor :=
  fold_left (fun s c => call c s) cs s.

(* ================================================================= *)
(** ** Reading a trace *)

(** The frames handed over in a trace, in order. *)
Definition readouts (tr : list event) : list (Z * Z) :=
  flat_map (fun e => match e with EvReadout b t => [(b, t)] | _ => [] end) tr.

(** The frame (if any) whose readout an iteration still owes. *)
Definition pending (capturedBuffer captureTime : Z) : list (Z * Z) :=
  if capturedBuffer =? NULL then [] else [(capturedBuffer, captureTime)].

(** Events of the inner loop: samples written to [buffer]. *)
Definition pixel_of (buffer : Z) (e : event) : bool :=
  match e with EvPixel b _ _ => b =? buffer | _ => false end.

(** Events of the render stage: samples written to [buffer], and readouts. *)
Definition render_event (buffer : Z) (e : event) : bool :=
  match e with
  | EvPixel b _ _ => b =? buffer
  | EvReadout _ _ => true
  | _ => false
  end.

(** Fields of the sensor that the handoff does not touch. *)
Definition same_private (s s' : Sensor) : Prop :=
  mGotVSync s' = mGotVSync s /\
  mExposureTime s' = mExposureTime s /\
  mFrameDuration s' = mFrameDuration s /\
  mGainFactor s' = mGainFactor s /\
  mNextBuffer s' = mNextBuffer s /\
  mNextStride s' = mNextStride s /\
  mStartupTime s' = mStartupTime s /\
  mNextCaptureTime s' = mNextCaptureTime s /\
  mNextCapturedBuffer s' = mNextCapturedBuffer s.

(** The handoff slot of the sensor. *)
Definition slot (s : Sensor) : Z * Z := (mCapturedBuffer s, mCaptureTime s).

(** [startRealTime] of the iteration that starts in world [w]. *)
Definition iterationStart (w : World) : Z := wrap_s64 (clock w (ticks w)).

(** The timestamp stage 2 of that iteration assigns ([mNextCaptureTime]). *)
Definition captureTimeAt (s : Sensor) (w : World) : Z :=
  wrap_s64 (wrap_s64 (iterationStart w - mStartupTime s)
            + (kRowReadoutTime + kMinVerticalBlank)).

(** [frameEndRealTime] of that iteration. *)
Definition frameEndAt (s : Sensor) (w : World) : Z :=
  wrap_s64 (iterationStart w + mFrameDuration s).

(** The fixed frame period of the sensor timing model. *)
Definition framePeriod : Z :=
  kRowReadoutTime * snd kResolution + kMinVerticalBlank.

(** The sensor after one iteration that started from [s] in world [w]. *)
Definition sensor_after (s : Sensor) (w : World) (s' : Sensor) : Prop :=
  mGotVSync s' = true /\
  mNextBuffer s' = NULL /\
  mNextCapturedBuffer s' = mNextBuffer s /\
  mNextCaptureTime s' = captureTimeAt s w /\
  mStartupTime s' = mStartupTime s /\
  mExposureTime s' = mExposureTime s /\
  mFrameDuration s' = mFrameDuration s /\
  mGainFactor s' = mGainFactor s /\
  mNextStride s' = mNextStride s /\
  slot s' = match pending (mNextCapturedBuffer s) (mNextCaptureTime s) with
            | [] => slot s
            | r :: _ => r
            end.

(** The components of an iteration's result. *)
Definition sensor_of (r : bool * Sensor * World * list event) : Sensor :=
  snd (fst (fst r)).
Definition world_of (r : bool * Sensor * World * list event) : World :=
  snd (fst r).
Definition trace_of (r : bool * Sensor * World * list event) : list event :=
  snd r.

(** [workDoneRealTime] of the iteration that starts from [s] in world [w]:
    the last clock reading but one of the iteration. *)
Definition workDoneAt (s : Sensor) (w : World) : Z :=
  wrap_s64 (clock w (ticks (world_of (threadLoop s w)) - 2)%nat).

(** The sensor as [waitForNewFrame] finds it when it reads the slot: as it
    is on entry if a frame is already there, as it is after the wait
    otherwise. *)
Definition slot_read_in (cs : list concurrent_step) (s : Sensor) : Sensor :=
  if mCapturedBuffer s =? NULL then during cs s else s.

(** Clock readings that stay clear of 64-bit overflow. *)
Definition clock_in_range (w : World) : Prop :=
  forall n : nat, 0 <= clock w n < 2 ^ 62.

(** The arguments of [sqrtf_approx] at sensitivity [g], for every electron
    count up to saturation. *)
Definition noise_args_normal (g : Z) : bool :=
  forallb (fun n => f32_pos_normal (noiseVariance (totalGain_of g) (Z.of_nat n)))
          (seq 0 2001).

(** The closed form of the pre-noise value at sensitivity [g], checked for
    every electron count up to saturation. *)
Definition pre_noise_formula_holds (g : Z) : bool :=
  forallb (fun n =>
             let e := Z.of_nat n in
             rawCountPreNoise (totalGain_of g) e
               =? Z.min (Z.min e kSaturationElectrons * (g / 50)) kMaxRawValue
                  + kBlackLevel)
          (seq 0 2001).

(* ================================================================= *)
(** ** Lifecycle *)

(** [Sensor::startUp] (lines 110-126).  [run_res] is what [Thread::run]
    returns when asked to start the capture thread. *)
Definition startUp (run_res : Z) (s : Sensor) (w : World)
  : Z * Sensor * World :=
  let s := set_mCapturedBuffer NULL s in
  let '(res, s, w) := readyToRun s w in
  if negb (res =? OK) then (res, s, w)
  else (run_res, s, w).

(* ================================================================= *)
(** ** Runs of the capture thread *)

(** What an iteration leaves in the pipeline and what it did: the buffer it
    latched, the timestamp it gave it, and its events. *)
Record iteration := mkIteration {
  it_buffer : Z;
  it_time : Z;
  it_trace : list event
}.

(** A run: before each iteration the clients make the calls of one step. *)
Fixpoint run (steps : list (list client_call)) (s : Sensor) (w : World)
  : list iteration * Sensor * World :=
  match steps with
  | [] => ([], s, w)
  | cs :: steps' =>
      let r := threadLoop (calls cs s) w in
      let '(its, s', w') := run steps' (sensor_of r) (world_of r) in
      (mkIteration (mNextCapturedBuffer (sensor_of r))
                   (mNextCaptureTime (sensor_of r)) (trace_of r) :: its,
       s', w')
  end.

(** The control parameters the capture loop only reads. *)
Definition control_of (s : Sensor) : Z * Z * Z * Z :=
  (mExposureTime s, mFrameDuration s, mGainFactor s, mNextStride s).

Definition sets_buffer (c : client_call) : bool :=
  match c with SetDestinationBuffer _ _ => true | _ => false end.

(** The buffer indices written in a trace, in order, and the indices of a
    whole frame in row-major order for a row stride. *)
Definition pixel_indices (tr : list event) : list Z :=
  flat_map (fun e => match e with EvPixel _ i _ => [i] | _ => [] end) tr.

Definition row_indices (stride : Z) (y : Z) (x0 : Z) (n : nat) : list Z :=
  map (fun j => wrap_u32 (y * stride) + (x0 + Z.of_nat j)) (seq 0 n).

Definition frame_indices (stride : Z) (y0 : Z) (rows : nat) : list Z :=
  flat_map (fun i => row_indices stride (y0 + Z.of_nat i) 0
                       (Z.to_nat (fst kResolution)))
           (seq 0 rows).

(* ================================================================= *)
(** ** Checks over the gain range *)

(** At gain [g] a saturated pixel is reported at [kMaxRawValue]. *)
Definition gain_reaches_max (g : Z) : bool :=
  rawCountClamped (totalGain_of g) kSaturationElectrons =? kMaxRawValue.

(** At gain [g] a saturated pixel stays below [kMaxRawValue]. *)
Definition gain_below_max (g : Z) : bool :=
  rawCountClamped (totalGain_of g) kSaturationElectrons <? kMaxRawValue.

(* ################################################################# *)
(** * Properties *)

(* ================================================================= *)
(** ** Fixed-width integers *)

Lemma wrap_u16_small (z : Z) : 0 <= z < 2 ^ 16 -> wrap_u16 z = z.
Proof. intros H. unfold wrap_u16. now apply Z.mod_small. Qed.

Lemma wrap_u32_small (z : Z) : 0 <= z < 2 ^ 32 -> wrap_u32 z = z.
Proof. intros H. unfold wrap_u32. now apply Z.mod_small. Qed.

Lemma wrap_s32_small (z : Z) : - 2 ^ 31 <= z < 2 ^ 31 -> wrap_s32 z = z.
Proof.
  intros H. unfold wrap_s32. rewrite Z.mod_small; lia.
Qed.

Lemma wrap_s64_small (z : Z) : - 2 ^ 63 <= z < 2 ^ 63 -> wrap_s64 z = z.
Proof.
  intros H. unfold wrap_s64. rewrite Z.mod_small; lia.
Qed.

(* ================================================================= *)
(** ** The approximate square root *)

Section SqrtBits.

(** The encoding agrees with the IEEE-754 layout on known values, and
    decoding undoes it on normal numbers. *)
Lemma f32_bits_known :
  bits_of_f32 (f32_of_Z 1) = 0x3F800000 /\
  bits_of_f32 (f32_of_Z 4) = 0x40800000 /\
  bits_of_f32 (f32_of_Z (-2)) = 0xC0000000 - 2 ^ 32 /\
  bits_of_f32 (sqrtf_approx (f32_of_Z 4)) = 0x3FFB4000.
Proof. vm_compute. repeat split; reflexivity. Qed.

Lemma f32_bits_roundtrip (s : bool) (m : positive) (e : Z) :
  2 ^ 23 <= Zpos m < 2 ^ 24 -> -149 <= e <= 104 ->
  f32_of_bits (bits_of_f32 (S754_finite s m e)) = S754_finite s m e.
Proof.
  intros Hm He.
  change (2 ^ 23) with 8388608 in Hm. change (2 ^ 24) with 16777216 in Hm.
  unfold bits_of_f32, f32_bits_unsigned, f32_of_bits.
  change (2 ^ 23) with 8388608. change (2 ^ 31) with 2147483648.
  destruct (Z.leb_spec 8388608 (Zpos m)) as [_ | H]; [|lia].
  set (b := (e + 150) * 8388608 + (Zpos m - 8388608)).
  assert (Hb : 8388608 <= b < 2139095040) by (unfold b; lia).
  assert (Hu : wrap_u32 (wrap_s32 ((if s then 2147483648 else 0) + b))
               = (if s then 2147483648 else 0) + b).
  { unfold wrap_u32, wrap_s32. change (2 ^ 32) with 4294967296.
    change (2 ^ 31) with 2147483648.
    destruct s; Z.div_mod_to_equations; lia. }
  rewrite Hu.
  assert (Hs : (2147483648 <=? (if s then 2147483648 else 0) + b) = s).
  { destruct s; [apply Z.leb_le | apply Z.leb_gt]; lia. }
  rewrite Hs.
  assert (HE : ((if s then 2147483648 else 0) + b) / 8388608 mod 256 = e + 150).
  { unfold b. destruct s; Z.div_mod_to_equations; lia. }
  assert (HM : ((if s then 2147483648 else 0) + b) mod 8388608
               = Zpos m - 8388608).
  { unfold b. destruct s; Z.div_mod_to_equations; lia. }
  rewrite HE, HM.
  destruct (Z.eqb_spec (e + 150) 0); [lia|].
  destruct (Z.eqb_spec (e + 150) 255); [lia|].
  replace (Zpos m - 8388608 + 8388608) with (Zpos m) by lia.
  f_equal. lia.
Qed.

(** On a positive normal number the bit manipulation yields a positive
    normal number again; its exponent [k] is half that of the argument
    (up to the remainder 23, 24 or 25), and its significand is an affine
    function of the argument's, [d] being the bit the shift drops. *)
Lemma sqrtf_approx_normal (m : positive) (e : Z) :
  2 ^ 23 <= Zpos m < 2 ^ 24 -> -149 <= e <= 104 ->
  exists (m' : positive) (k d : Z),
    sqrtf_approx (S754_finite false m e) = S754_finite false m' k /\
    0 <= d <= 1 /\ 8388608 <= Zpos m' < 16777216 /\
    ((e = 2 * k + 25 /\ 2 * Zpos m' = Zpos m + 24543232 - d) \/
     (e = 2 * k + 24 /\ 2 * Zpos m' = Zpos m + 16154624 - d) \/
     (e = 2 * k + 23 /\ 2 * Zpos m' = Zpos m + 7766016 - d /\
      9011200 <= Zpos m)).
Proof.
  intros Hm He.
  change (2 ^ 23) with 8388608 in Hm. change (2 ^ 24) with 16777216 in Hm.
  unfold sqrtf_approx, bits_of_f32, f32_bits_unsigned, modifier.
  change (2 ^ 23) with 8388608.
  destruct (Z.leb_spec 8388608 (Zpos m)) as [_ | H]; [|lia].
  set (b := 0 + ((e + 150) * 8388608 + (Zpos m - 8388608))).
  assert (Hb : 8388608 <= b < 2139095040) by (unfold b; lia).
  rewrite (wrap_s32_small b) by (change (2 ^ 31) with 2147483648; lia).
  rewrite Z.shiftr_div_pow2 by lia. change (2 ^ 1) with 2.
  set (h := b / 2).
  assert (Hh : 2 * h <= b < 2 * h + 2)
    by (unfold h; Z.div_mod_to_equations; lia).
  rewrite (wrap_s32_small (h + 532365312))
    by (change (2 ^ 31) with 2147483648; lia).
  unfold f32_of_bits.
  rewrite (wrap_u32_small (h + 532365312))
    by (change (2 ^ 32) with 4294967296; lia).
  change (2 ^ 31) with 2147483648. change (2 ^ 23) with 8388608.
  destruct (Z.leb_spec 2147483648 (h + 532365312)) as [H | _]; [lia|].
  set (E' := (h + 532365312) / 8388608).
  set (M' := (h + 532365312) mod 8388608).
  assert (HEM : h + 532365312 = 8388608 * E' + M' /\ 0 <= M' < 8388608)
    by (unfold E', M'; Z.div_mod_to_equations; lia).
  destruct HEM as [HEM HM'].
  assert (HE' : 1 <= E' <= 254) by lia.
  rewrite (Z.mod_small E' 256) by lia.
  destruct (Z.eqb_spec E' 0) as [H | _]; [lia|].
  destruct (Z.eqb_spec E' 255) as [H | _]; [lia|].
  destruct (M' + 8388608) as [|m'|m'] eqn:EA; try lia.
  exists m', (E' - 150), (b - 2 * h).
  split; [reflexivity|]. split; [lia|]. split; [lia|].
  unfold b in *. lia.
Qed.
End SqrtBits.

Section SqrtReal.
Local Open Scope R_scope.

(** A relative error on the square root, read off the squares. *)
Lemma rel_error_of_squares (a x : R) :
  0 < x -> 0 <= a ->
  (964 / 1000) * (964 / 1000) * x <= a * a ->
  a * a <= (1036 / 1000) * (1036 / 1000) * x ->
  Rabs (a - sqrt x) / sqrt x <= 36 / 1000.
Proof.
  intros Hx Ha Hlo Hhi.
  pose proof (sqrt_lt_R0 x Hx) as Hs.
  pose proof (sqrt_sqrt x (Rlt_le _ _ Hx)) as Hss.
  set (s := sqrt x) in *.
  assert (L : 964 / 1000 * s <= a) by nra.
  assert (U : a <= 1036 / 1000 * s) by nra.
  assert (A : Rabs (a - s) <= 36 / 1000 * s).
  { apply Rabs_le. lra. }
  apply Rmult_le_reg_r with s; [exact Hs|].
  unfold Rdiv at 1. rewrite Rmult_assoc, Rinv_l by lra. lra.
Qed.

Lemma scaled_bounds (X B C : Z) (P : R) :
  (0 < X)%Z -> (0 <= B)%Z -> 0 < P ->
  (929296 * X * (4 * C) <= 1000000 * (B * B)
     <= 1073296 * X * (4 * C))%Z ->
  let a := IZR B / 2 * P in
  let x := IZR X * (P * P * IZR C) in
  (964 / 1000) * (964 / 1000) * x <= a * a /\
  a * a <= (1036 / 1000) * (1036 / 1000) * x.
Proof.
  intros HX HB HP [Hlo Hhi] a x.
  apply IZR_le in Hlo, Hhi. rewrite !mult_IZR in Hlo, Hhi.
  assert (HPP : 0 < P * P) by nra.
  unfold a, x. split.
  - replace (964 / 1000 * (964 / 1000) * (IZR X * (P * P * IZR C)))
      with ((929296 * IZR X * (4 * IZR C)) / 4000000 * (P * P)) by field.
    replace (IZR B / 2 * P * (IZR B / 2 * P))
      with ((1000000 * (IZR B * IZR B)) / 4000000 * (P * P)) by field.
    apply Rmult_le_compat_r; lra.
  - replace (1036 / 1000 * (1036 / 1000) * (IZR X * (P * P * IZR C)))
      with ((1073296 * IZR X * (4 * IZR C)) / 4000000 * (P * P)) by field.
    replace (IZR B / 2 * P * (IZR B / 2 * P))
      with ((1000000 * (IZR B * IZR B)) / 4000000 * (P * P)) by field.
    apply Rmult_le_compat_r; lra.
Qed.
End SqrtReal.

Section SqrtAccuracy.

(** The three quadratic bounds on the significands, one for each
    remainder of the exponent. *)
Lemma mantissa_bounds_25 (X B d : Z) :
  8388608 <= X -> 0 <= d <= 1 -> B = X + 24543232 - d -> B < 33554432 ->
  929296 * X * (4 * 33554432) <= 1000000 * (B * B)
    <= 1073296 * X * (4 * 33554432).
Proof.
  intros HX Hd -> HB.
  assert (d = 0 \/ d = 1) as [-> | ->] by lia; split; nia.
Qed.

Lemma mantissa_bounds_24 (X B d : Z) :
  8388608 <= X < 16777216 -> 0 <= d <= 1 -> B = X + 16154624 - d ->
  929296 * X * (4 * 16777216) <= 1000000 * (B * B)
    <= 1073296 * X * (4 * 16777216).
Proof.
  intros HX Hd ->.
  assert (d = 0 \/ d = 1) as [-> | ->] by lia; split; nia.
Qed.

Lemma mantissa_bounds_23 (X B d : Z) :
  9011200 <= X < 16777216 -> 0 <= d <= 1 -> B = X + 7766016 - d ->
  929296 * X * (4 * 8388608) <= 1000000 * (B * B)
    <= 1073296 * X * (4 * 8388608).
Proof.
  intros HX Hd ->.
  assert (d = 0 \/ d = 1) as [-> | ->] by lia; split; nia.
Qed.

Lemma powerRZ_2_split (k c : Z) :
  powerRZ 2 (2 * k + c)
    = (powerRZ 2 k * powerRZ 2 k * powerRZ 2 c)%R.
Proof.
  replace (2 * k + c) with (k + k + c) by lia.
  rewrite !powerRZ_add by lra. reflexivity.
Qed.

(** C3: for every positive normal binary32 number [r] (a range that
    contains every argument the render stage passes), the relative error
    of [sqrtf_approx r] with respect to the real square root of [r] is at
    most 0.036. *)
Theorem sqrtf_approx_accuracy (r : spec_float) :
  f32_pos_normal r = true ->
  (Rabs (SF2R (sqrtf_approx r) - sqrt (SF2R r)) / sqrt (SF2R r)
     <= 36 / 1000)%R.
Proof.
  destruct r as [s | s | | s m e]; try discriminate.
  destruct s; try discriminate. cbn [f32_pos_normal].
  intros H. repeat (apply andb_prop in H; destruct H as [H ?]).
  apply Z.leb_le in H. apply Z.ltb_lt in H2. apply Z.leb_le in H1.
  apply Z.leb_le in H0.
  destruct (sqrtf_approx_normal m e (conj H H2) (conj H1 H0))
    as (m' & k & d & E & Hd & Hm' & Hc).
  rewrite E. unfold SF2R. rewrite !Rmult_1_l.
  change (2 ^ 23) with 8388608 in H. change (2 ^ 24) with 16777216 in H2.
  pose proof (powerRZ_lt 2 k ltac:(lra)) as HP.
  assert (Ha : (IZR (Zpos m') * powerRZ 2 k
                = IZR (2 * Zpos m') / 2 * powerRZ 2 k)%R).
  { rewrite mult_IZR. field. }
  assert (HX : (0 < IZR (Zpos m))%R) by (apply IZR_lt; lia).
  assert (HB : (0 <= IZR (Zpos m') * powerRZ 2 k)%R).
  { apply Rmult_le_pos; [apply IZR_le; lia | lra]. }
  assert (Hx : forall c, (0 < IZR (Z.pos m) * powerRZ 2 (2 * k + c))%R).
  { intros c. apply Rmult_lt_0_compat; [exact HX|]. apply powerRZ_lt. lra. }
  destruct Hc as [[He Hm2] | [[He Hm2] | [He [Hm2 Hlo]]]]; subst e;
    (apply rel_error_of_squares; [apply Hx | exact HB | |]);
    rewrite powerRZ_2_split, Ha.
  1,2: change (powerRZ 2 25) with (IZR 2 ^ 25)%R; rewrite pow_IZR;
       change (2 ^ Z.of_nat 25) with 33554432;
       apply (scaled_bounds (Zpos m) (2 * Zpos m') 33554432 (powerRZ 2 k));
         try lia; try exact HP;
       apply (mantissa_bounds_25 _ _ d); lia.
  1,2: change (powerRZ 2 24) with (IZR 2 ^ 24)%R; rewrite pow_IZR;
       change (2 ^ Z.of_nat 24) with 16777216;
       apply (scaled_bounds (Zpos m) (2 * Zpos m') 16777216 (powerRZ 2 k));
         try lia; try exact HP;
       apply (mantissa_bounds_24 _ _ d); lia.
  1,2: change (powerRZ 2 23) with (IZR 2 ^ 23)%R; rewrite pow_IZR;
       change (2 ^ Z.of_nat 23) with 8388608;
       apply (scaled_bounds (Zpos m) (2 * Zpos m') 8388608 (powerRZ 2 k));
         try lia; try exact HP;
       apply (mantissa_bounds_23 _ _ d); lia.
Qed.
End SqrtAccuracy.

(* ================================================================= *)
(** ** The per-pixel model *)

Section Pixel.

Lemma saturate_min (e : Z) : saturate e = Z.min e kSaturationElectrons.
Proof.
  unfold saturate. destruct (Z.ltb_spec e kSaturationElectrons); lia.
Qed.

Lemma saturate_above (e : Z) :
  kSaturationElectrons <= e -> saturate e = kSaturationElectrons.
Proof. rewrite saturate_min. lia. Qed.

Lemma clampRaw_min (c : Z) : clampRaw c = Z.min c kMaxRawValue.
Proof. unfold clampRaw. destruct (Z.ltb_spec c kMaxRawValue); lia. Qed.

(** The sensitivities the sensor advertises give total gains 2, 4, 8, 16
    and 32, all exact in binary32. *)
Lemma totalGain_supported (g : Z) :
  In g kAvailableSensitivities ->
  totalGain_of g = f32_of_Z (g / 50).
Proof.
  unfold kAvailableSensitivities. simpl.
  intros [<- | [<- | [<- | [<- | [<- | []]]]]]; vm_compute; reflexivity.
Qed.

(** A saturated pixel at a supported sensitivity: the clamp of line 292
    is reached, and line 301 adds the black level on top of it. *)
Lemma saturated_supported (g : Z) :
  In g kAvailableSensitivities ->
  rawCountClamped (totalGain_of g) kSaturationElectrons = kMaxRawValue /\
  rawCountPreNoise (totalGain_of g) kSaturationElectrons
    = kMaxRawValue + kBlackLevel.
Proof.
  unfold kAvailableSensitivities. simpl.
  intros [<- | [<- | [<- | [<- | [<- | []]]]]]; vm_compute; split; reflexivity.
Qed.

Lemma rawCountClamped_saturate (tg : spec_float) (e : Z) :
  rawCountClamped tg e = rawCountClamped tg (saturate e).
Proof.
  unfold rawCountClamped. f_equal. f_equal.
  rewrite !saturate_min. lia.
Qed.

Lemma rawCountPreNoise_saturate (tg : spec_float) (e : Z) :
  rawCountPreNoise tg e = rawCountPreNoise tg (saturate e).
Proof.
  unfold rawCountPreNoise. now rewrite rawCountClamped_saturate.
Qed.

(** Below the unsupported gain 100 a saturated pixel does not reach
    [kMaxRawValue] at all. *)
Lemma low_gain_below_max_raw :
  rawCountClamped (totalGain_of 50) 1000000 = 2000.
Proof. vm_compute. reflexivity. Qed.

End Pixel.

Lemma sqrtf_approx_accuracy_witness :
  (Rabs (SF2R (sqrtf_approx (f32_of_Z 4)) - sqrt (SF2R (f32_of_Z 4)))
     / sqrt (SF2R (f32_of_Z 4)) <= 36 / 1000)%R.
Proof. apply (sqrtf_approx_accuracy (f32_of_Z 4)). reflexivity. Defined.

(** The operating range: at a supported sensitivity, whatever the electron
    count, the variance handed to [sqrtf_approx] on line 297 is a positive
    normal number. *)
Lemma noise_variance_normal (g e : Z) :
  In g kAvailableSensitivities -> 0 <= e ->
  f32_pos_normal (noiseVariance (totalGain_of g) e) = true.
Proof.
  intros Hg He.
  assert (Hall : forallb noise_args_normal kAvailableSensitivities = true)
    by (vm_compute; reflexivity).
  rewrite forallb_forall in Hall. specialize (Hall g Hg).
  unfold noise_args_normal in Hall. rewrite forallb_forall in Hall.
  assert (Hs : 0 <= saturate e <= 2000).
  { rewrite saturate_min. unfold kSaturationElectrons. lia. }
  assert (Hsat : noiseVariance (totalGain_of g) e
                 = noiseVariance (totalGain_of g) (saturate e)).
  { unfold noiseVariance. do 3 f_equal. rewrite !saturate_min. lia. }
  rewrite Hsat.
  specialize (Hall (Z.to_nat (saturate e))).
  rewrite Z2Nat.id in Hall by lia. apply Hall.
  apply in_seq. lia.
Qed.

(** The pre-noise value in closed form, at the supported sensitivities:
    gain [g] multiplies the electron count by [g / 50]. *)
Lemma rawCountPreNoise_formula (g e : Z) :
  In g kAvailableSensitivities -> 0 <= e ->
  rawCountPreNoise (totalGain_of g) e
    = Z.min (Z.min e kSaturationElectrons * (g / 50)) kMaxRawValue
      + kBlackLevel.
Proof.
  intros Hg He.
  assert (Hall : forallb pre_noise_formula_holds kAvailableSensitivities = true)
    by (vm_compute; reflexivity).
  rewrite forallb_forall in Hall. specialize (Hall g Hg).
  unfold pre_noise_formula_holds in Hall. rewrite forallb_forall in Hall.
  assert (Hs : 0 <= saturate e <= 2000).
  { rewrite saturate_min. unfold kSaturationElectrons. lia. }
  rewrite rawCountPreNoise_saturate.
  specialize (Hall (Z.to_nat (saturate e))).
  rewrite Z2Nat.id in Hall by lia.
  rewrite <- saturate_min.
  apply Z.eqb_eq. rewrite <- (saturate_min (saturate e)) in Hall.
  replace (saturate (saturate e)) with (saturate e) in Hall
    by (rewrite !saturate_min; lia).
  apply Hall. apply in_seq. lia.
Qed.

(** C1, as stated, fails: with electronCount = 1500 and gain = 200 the total
    gain is 4, and the value the noise is added to is not the sum
    [min(1500, 2000) * totalGain + blackLevel] clamped to [kMaxRawValue]
    (which would be 4000); nor is it the unclamped sum. *)
Lemma pixel_formula_sum_not_clamped :
  let tg := totalGain_of 200 in
  f_trunc tg = 4 /\
  rawCountPreNoise tg 1500
    <> Z.min (Z.min 1500 kSaturationElectrons * f_trunc tg + kBlackLevel)
             kMaxRawValue /\
  rawCountPreNoise tg 1500
    <> Z.min 1500 kSaturationElectrons * f_trunc tg + kBlackLevel.
Proof. vm_compute. repeat split; discriminate. Qed.

(** C1, amended: with electronCount = 1500, saturationElectrons = 2000 and
    gain = 200 (total gain = 2 x base gain factor = 4), the raw sample before
    the noise term is added is [min(min(1500, 2000) * totalGain, maxRawValue)
    + blackLevel] = 5000: the product is clamped to [kMaxRawValue] first and
    the black level is added to the clamped value. *)
Theorem pixel_formula_gain200 :
  let tg := totalGain_of 200 in
  tg = f32_mul (f32_of_Z 2) kBaseGainFactor /\
  tg = f32_of_Z 4 /\
  rawCountPreNoise tg 1500
    = Z.min (Z.min 1500 kSaturationElectrons * 4) kMaxRawValue + kBlackLevel /\
  rawCountPreNoise tg 1500 = 5000.
Proof. vm_compute. repeat split; reflexivity. Qed.

(** C4, as stated, fails: for a pixel far above saturation, at the default
    sensitivity, the value the noise is added to is 5000, which is larger
    than [kMaxRawValue]. *)
Lemma saturated_pixel_above_max_raw :
  rawCountPreNoise (totalGain_of kDefaultSensitivity) 1000000 = 5000 /\
  rawCountPreNoise (totalGain_of kDefaultSensitivity) 1000000 <> kMaxRawValue /\
  kMaxRawValue < rawCountPreNoise (totalGain_of kDefaultSensitivity) 1000000.
Proof. vm_compute. repeat split; discriminate. Qed.

(** C4, amended: for every pixel whose electron count is at or above
    [kSaturationElectrons], at each of the five supported sensitivities, the
    raw count after the A/D clamp equals [kMaxRawValue] (4000), never more;
    the value the noise term is added to is that clamp plus the black
    level, 5000. *)
Theorem saturation_clamp (g e : Z) :
  In g kAvailableSensitivities ->
  kSaturationElectrons <= e ->
  rawCountClamped (totalGain_of g) e = kMaxRawValue /\
  rawCountPreNoise (totalGain_of g) e = kMaxRawValue + kBlackLevel.
Proof.
  intros Hg He.
  rewrite rawCountClamped_saturate, rawCountPreNoise_saturate.
  rewrite (saturate_above e He).
  now apply saturated_supported.
Qed.

Lemma saturation_clamp_witness :
  rawCountClamped (totalGain_of 800) 123456 = kMaxRawValue /\
  rawCountPreNoise (totalGain_of 800) 123456 = kMaxRawValue + kBlackLevel.
Proof.
  apply (saturation_clamp 800 123456).
  - simpl. tauto.
  - vm_compute. discriminate.
Defined.

(** C10: [setSensitivity] stores whatever 32-bit gain it is given, and there
    is a gain outside the supported list (1700, total gain 34) for which the
    product of a saturated pixel, 2000 * 34 = 68000, does not fit
    [uint16_t]: it is stored as 68000 - 65536 = 2464, below [kMaxRawValue],
    so the clamp of line 292 leaves it and the saturated pixel is not
    reported at [kMaxRawValue]. *)
Theorem unvalidated_gain_wraps_raw_count :
  (forall g s, mGainFactor (setSensitivity g s) = wrap_u32 g) /\
  exists g e,
    0 <= g < 2 ^ 32 /\ wrap_u32 g = g /\ ~ In g kAvailableSensitivities /\
    saturate e = kSaturationElectrons /\
    f_trunc (f32_mul (f32_of_Z (saturate e)) (totalGain_of g)) = 68000 /\
    rawCountConverted (totalGain_of g) (saturate e) = 68000 mod 2 ^ 16 /\
    rawCountConverted (totalGain_of g) (saturate e) < kMaxRawValue /\
    rawCountClamped (totalGain_of g) e = 2464 /\
    rawCountClamped (totalGain_of g) e < kMaxRawValue.
Proof.
  split; [reflexivity|].
  exists 1700, 2000.
  vm_compute. repeat split; try discriminate; try reflexivity.
  intros [H | [H | [H | [H | [H | []]]]]]; discriminate.
Qed.

(* ================================================================= *)
(** ** Traces *)

Section Traces.

Lemma readouts_app (a b : list event) :
  readouts (a ++ b) = readouts a ++ readouts b.
Proof. unfold readouts. apply flat_map_app. Qed.

Lemma pixels_no_readouts (buf : Z) (tr : list event) :
  forallb (pixel_of buf) tr = true -> readouts tr = [].
Proof.
  induction tr as [|e tr IH]; simpl; [reflexivity|].
  intros H. apply andb_prop in H. destruct H as [He Htr].
  destruct e; simpl in *; try discriminate. now apply IH.
Qed.

Lemma pixels_are_render_events (buf : Z) (tr : list event) :
  forallb (pixel_of buf) tr = true -> forallb (render_event buf) tr = true.
Proof.
  induction tr as [|e tr IH]; simpl; [reflexivity|].
  intros H. apply andb_prop in H. destruct H as [He Htr].
  rewrite (IH Htr). destruct e; simpl in *; try discriminate.
  now rewrite He.
Qed.

Lemma render_events_no_vsync (buf : Z) (tr : list event) :
  forallb (render_event buf) tr = true -> filter is_vsync tr = [].
Proof.
  induction tr as [|e tr IH]; simpl; [reflexivity|].
  intros H. apply andb_prop in H. destruct H as [He Htr].
  destruct e; simpl in *; try discriminate; now apply IH.
Qed.

Lemma render_events_no_sleep (buf : Z) (tr : list event) :
  forallb (render_event buf) tr = true -> filter is_sleep tr = [].
Proof.
  induction tr as [|e tr IH]; simpl; [reflexivity|].
  intros H. apply andb_prop in H. destruct H as [He Htr].
  destruct e; simpl in *; try discriminate; now apply IH.
Qed.

Lemma render_events_targets (buf : Z) (tr : list event) :
  forallb (render_event buf) tr = true ->
  forallb (pixel_targets buf) tr = true.
Proof.
  induction tr as [|e tr IH]; simpl; [reflexivity|].
  intros H. apply andb_prop in H. destruct H as [He Htr].
  rewrite (IH Htr). destruct e; simpl in *; try discriminate;
    try reflexivity. now rewrite He.
Qed.

Lemma forallb_filter_id_pixel (tr : list event) (buf : Z) :
  forallb (pixel_of buf) tr = true ->
  length (filter is_pixel tr) = length tr /\ filter is_pixel tr = tr.
Proof.
  induction tr as [|e tr IH]; simpl; [split; reflexivity|].
  intros H. apply andb_prop in H. destruct H as [He Htr].
  destruct (IH Htr) as [IH1 IH2].
  destruct e; simpl in *; try discriminate. now rewrite IH1, IH2.
Qed.

Lemma pacing_cases (fe wd : Z) :
  pacing fe wd = [] \/ exists a b, pacing fe wd = [EvSleep a b].
Proof.
  unfold pacing. destruct (wd <? wrap_s64 (fe - timeAccuracy)); eauto.
Qed.

End Traces.

(* ================================================================= *)
(** ** The render loops *)

Local Ltac split7 :=
  refine (conj _ (conj _ (conj _ (conj _ (conj _ (conj _ _)))))).

Section RenderLoops.

Variable electrons : Z -> Z -> Z -> Z.
Variable totalGain : spec_float.

Lemma renderRow_spec (y buf px : Z) (n : nat) :
  forall (x : Z) (w : World),
    let r := renderRow n x y electrons totalGain buf px w in
    forallb (pixel_of buf) (fst r) = true /\
    length (fst r) = n /\
    clock (snd r) = clock w /\ ticks (snd r) = ticks w.
Proof.
  induction n as [|n IH]; intros x w; cbn [renderRow].
  - repeat split.
  - unfold std_rand.
    specialize (IH (x + 1)
                   (mkWorld (clock w) (ticks w) (rand_stream w)
                            (S (draws w)) (rand_max w) (scene w))).
    destruct (renderRow n (x + 1) y electrons totalGain buf px
                (mkWorld (clock w) (ticks w) (rand_stream w)
                         (S (draws w)) (rand_max w) (scene w)))
      as [evs w1].
    cbn [fst snd clock ticks] in *. destruct IH as (Hp & Hl & Hc & Ht).
    cbn [forallb pixel_of length]. rewrite Z.eqb_refl, Hp, Hl.
    repeat split; assumption.
Qed.

Lemma same_private_refl (s : Sensor) : same_private s s.
Proof. repeat split. Qed.

Lemma same_private_publish (b t : Z) (s : Sensor) :
  same_private s (publish b t s).
Proof. repeat split. Qed.

Lemma same_private_trans (a b c : Sensor) :
  same_private a b -> same_private b c -> same_private a c.
Proof.
  unfold same_private. intros H1 H2.
  decompose [and] H1. decompose [and] H2. repeat split; congruence.
Qed.

Lemma renderRows_spec (stride fre ct : Z) (n : nat) :
  forall (y cb st : Z) (s : Sensor) (w : World),
    match renderRows n y electrons totalGain stride fre cb ct st s w with
    | (cb', s', w', evs) =>
        forallb (render_event (mNextCapturedBuffer s)) evs = true /\
        length (filter is_pixel evs) = (n * Z.to_nat (fst kResolution))%nat /\
        readouts evs ++ pending cb' ct = pending cb ct /\
        same_private s s' /\
        slot s' = match readouts evs with [] => slot s | r :: _ => r end /\
        clock w' = clock w /\ (ticks w <= ticks w')%nat
    end.
Proof.
  induction n as [|n IH]; intros y cb st s w.
  - cbn [renderRows]. split7; try reflexivity. apply same_private_refl.
  - cbn [renderRows].
    pose proof (renderRow_spec y (mNextCapturedBuffer s)
                  (wrap_u32 (y * stride)) (Z.to_nat (fst kResolution)) 0 w)
      as Hrow.
    destruct (renderRow (Z.to_nat (fst kResolution)) 0 y electrons totalGain
                        (mNextCapturedBuffer s) (wrap_u32 (y * stride)) w)
      as [row w1] eqn:Erow.
    cbn [fst snd] in Hrow. destruct Hrow as (Hpx & Hlen & Hclk & Htk).
    set (chk := negb (cb =? NULL) && (Z.land y 63 =? 0)).
    assert (Hdue :
      exists due w2,
        (if chk
         then let '(now, w) := systemTime w1 in (fre <=? now, w)
         else (false, w1)) = (due, w2) /\
        clock w2 = clock w /\ (ticks w <= ticks w2)%nat /\
        (due = true -> (cb =? NULL) = false)).
    { destruct chk eqn:Echk.
      - exists (fre <=? wrap_s64 (clock w1 (ticks w1))), (snd (systemTime w1)).
        unfold systemTime; cbn [fst snd clock ticks].
        repeat split; try congruence; try lia.
        intros _. unfold chk in Echk. apply andb_prop in Echk.
        destruct Echk as [Hcb _]. now apply negb_true_iff in Hcb.
      - exists false, w1. repeat split; try congruence; try lia. }
    destruct Hdue as (due & w2 & -> & Hclk2 & Htk2 & Hcb).
    destruct due.
    + specialize (Hcb eq_refl).
      specialize (IH (y + 1) NULL (wrap_s64 (st + kRowReadoutTime))
                     (publish cb ct s) w2).
      destruct (renderRows n (y + 1) electrons totalGain stride fre NULL ct
                  (wrap_s64 (st + kRowReadoutTime)) (publish cb ct s) w2)
        as [[[cb' s'] w'] evs] eqn:Erec.
      destruct IH as (Hev & Hcnt & Hro & Hsame & Hslot & Hc & Ht).
      cbn [publish mNextCapturedBuffer set_mCaptureTime set_mCapturedBuffer]
        in Hev.
      assert (Hnil : readouts evs = [] /\ pending cb' ct = []).
      { unfold pending at 2 in Hro. simpl in Hro.
        now apply app_eq_nil in Hro. }
      destruct Hnil as [Hnil Hpend].
      split7.
      * rewrite !forallb_app, Hev.
        rewrite (pixels_are_render_events _ _ Hpx). reflexivity.
      * rewrite !filter_app, !length_app.
        rewrite (proj1 (forallb_filter_id_pixel row
                          (mNextCapturedBuffer s) Hpx)).
        cbn [filter is_pixel length]. rewrite Hcnt, Hlen. lia.
      * rewrite !readouts_app, (pixels_no_readouts _ _ Hpx), Hnil, Hpend.
        simpl. unfold pending. now rewrite Hcb.
      * eapply same_private_trans; [apply same_private_publish|exact Hsame].
      * rewrite !readouts_app, (pixels_no_readouts _ _ Hpx). simpl.
        rewrite Hslot, Hnil. reflexivity.
      * congruence.
      * lia.
    + specialize (IH (y + 1) cb (wrap_s64 (st + kRowReadoutTime)) s w2).
      destruct (renderRows n (y + 1) electrons totalGain stride fre cb ct
                  (wrap_s64 (st + kRowReadoutTime)) s w2)
        as [[[cb' s'] w'] evs] eqn:Erec.
      destruct IH as (Hev & Hcnt & Hro & Hsame & Hslot & Hc & Ht).
      split7.
      * rewrite !forallb_app, Hev.
        rewrite (pixels_are_render_events _ _ Hpx). reflexivity.
      * rewrite !filter_app, !length_app.
        rewrite (proj1 (forallb_filter_id_pixel row
                          (mNextCapturedBuffer s) Hpx)).
        cbn [filter is_pixel length]. rewrite Hcnt, Hlen. lia.
      * rewrite !readouts_app, (pixels_no_readouts _ _ Hpx). simpl.
        exact Hro.
      * exact Hsame.
      * rewrite !readouts_app, (pixels_no_readouts _ _ Hpx). simpl.
        exact Hslot.
      * congruence.
      * lia.
Qed.

End RenderLoops.

(* ================================================================= *)
(** ** One iteration of the capture loop *)

Section Iteration.

Lemma pacing_trace (fe wd : Z) :
  let p := pacing fe wd in
  filter is_vsync p = [] /\ filter is_pixel p = [] /\ readouts p = [] /\
  filter is_sleep p = p /\ forall b, forallb (pixel_targets b) p = true.
Proof.
  destruct (pacing_cases fe wd) as [H | (a & b & H)]; simpl; rewrite H;
    simpl; repeat split.
Qed.

Local Ltac fields :=
  cbn [exposureDuration frameDuration gain nextBuffer stride
       mGotVSync mExposureTime mFrameDuration mGainFactor mNextBuffer
       mNextStride mCapturedBuffer mCaptureTime mStartupTime
       mNextCaptureTime mNextCapturedBuffer
       set_mGotVSync set_mNextBuffer set_mNextCapturedBuffer
       set_mNextCaptureTime set_mCapturedBuffer set_mCaptureTime publish
       clock ticks rand_stream draws rand_max scene slot] in *.

Lemma threadLoop_spec (s : Sensor) (w : World) :
  exists s' w' tail,
    threadLoop s w = (true, s', w', EvVSync :: tail) /\
    filter is_vsync tail = [] /\
    forallb (pixel_targets (mNextBuffer s)) tail = true /\
    length (filter is_pixel tail)
      = (if mNextBuffer s =? NULL then 0%nat
         else (Z.to_nat (snd kResolution) * Z.to_nat (fst kResolution))%nat) /\
    readouts tail = pending (mNextCapturedBuffer s) (mNextCaptureTime s) /\
    filter is_sleep tail
      = pacing (frameEndAt s w) (wrap_s64 (clock w (ticks w' - 2)%nat)) /\
    clock w' = clock w /\ (ticks w + 3 <= ticks w')%nat /\
    sensor_after s w s'.
Proof.
  unfold threadLoop, latch, systemTime. cbv beta iota zeta. fields.
  fold (iterationStart w). fold (captureTimeAt s w). fold (frameEndAt s w).
  set (w1 := mkWorld (clock w) (S (ticks w)) (rand_stream w) (draws w)
                     (rand_max w) (scene w)).
  set (s1 := set_mNextCapturedBuffer (mNextBuffer s)
               (set_mNextCaptureTime (captureTimeAt s w)
                  (set_mGotVSync true (set_mNextBuffer NULL s)))).
  (* the frame whose readout this iteration owes *)
  assert (Hcb : exists cb ct,
    (if negb (mNextCapturedBuffer s =? NULL)
     then (mNextCapturedBuffer s, mNextCaptureTime s) else (NULL, 0))
    = (cb, ct) /\
    pending cb ct = pending (mNextCapturedBuffer s) (mNextCaptureTime s)).
  { destruct (mNextCapturedBuffer s =? NULL) eqn:E; simpl.
    - exists NULL, 0. split; [reflexivity|]. unfold pending. now rewrite E.
    - eauto. }
  destruct Hcb as (cb & ct & -> & Hpend). rewrite <- Hpend.
  (* the render stage *)
  assert (Hrender : exists cb' s2 w2 rendered,
    (if negb (mNextBuffer s =? NULL)
     then renderRows (Z.to_nat (snd kResolution)) 0
            (scene w (exposureSeconds (mExposureTime s)) (captureTimeAt s w))
            (totalGain_of (mGainFactor s)) (mNextStride s)
            (wrap_s64 (iterationStart w + kRowReadoutTime * snd kResolution))
            cb ct (captureTimeAt s w) s1 w1
     else (cb, s1, w1, [])) = (cb', s2, w2, rendered) /\
    forallb (render_event (mNextBuffer s)) rendered = true /\
    length (filter is_pixel rendered)
      = (if mNextBuffer s =? NULL then 0%nat
         else (Z.to_nat (snd kResolution) * Z.to_nat (fst kResolution))%nat) /\
    readouts rendered ++ pending cb' ct = pending cb ct /\
    same_private s1 s2 /\
    slot s2 = match readouts rendered with [] => slot s | r :: _ => r end /\
    clock w2 = clock w /\ (S (ticks w) <= ticks w2)%nat).
  { destruct (mNextBuffer s =? NULL) eqn:E; cbn [negb].
    - exists cb, s1, w1, []. split; [reflexivity|].
      split7; try reflexivity. apply same_private_refl.
    - pose proof (renderRows_spec
        (scene w (exposureSeconds (mExposureTime s)) (captureTimeAt s w))
        (totalGain_of (mGainFactor s)) (mNextStride s)
        (wrap_s64 (iterationStart w + kRowReadoutTime * snd kResolution))
        ct (Z.to_nat (snd kResolution)) 0 cb (captureTimeAt s w) s1 w1) as H.
      destruct (renderRows _ _ _ _ _ _ _ _ _ _ _) as [[[cb' s2] w2] rendered].
      exists cb', s2, w2, rendered. split; [reflexivity|].
      destruct H as (H1 & H2 & H3 & H4 & H5 & H6 & H7).
      subst s1 w1. fields. split7; assumption. }
  destruct Hrender as (cb' & s2 & w2 & rendered & -> &
                       Hev & Hcnt & Hro & Hsame & Hslot & Hclk & Htk).
  pose proof (pacing_trace (frameEndAt s w) (wrap_s64 (clock w2 (ticks w2))))
    as (Pv & Pp & Pr & Ps & Pt).
  assert (Hpriv : forall s3, same_private s2 s3 ->
    mGotVSync s3 = true /\ mNextBuffer s3 = NULL /\
    mNextCapturedBuffer s3 = mNextBuffer s /\
    mNextCaptureTime s3 = captureTimeAt s w /\
    mStartupTime s3 = mStartupTime s /\
    mExposureTime s3 = mExposureTime s /\
    mFrameDuration s3 = mFrameDuration s /\
    mGainFactor s3 = mGainFactor s /\
    mNextStride s3 = mNextStride s).
  { intros s3 H23.
    pose proof (same_private_trans _ _ _ Hsame H23) as H.
    unfold same_private in H. subst s1. fields.
    decompose [and] H. repeat split; assumption. }
  destruct (cb' =? NULL) eqn:Ecb'; cbn [negb].
  - (* nothing left to hand over *)
    eexists _, _, _. split; [reflexivity|].
    assert (Hro' : readouts rendered = pending cb ct).
    { unfold pending at 1 in Hro. rewrite Ecb' in Hro.
      now rewrite app_nil_r in Hro. }
    fields. replace (S (S (ticks w2)) - 2)%nat with (ticks w2) by lia.
    rewrite Hclk in *.
    rewrite !filter_app, !forallb_app, !readouts_app, !length_app.
    rewrite (render_events_no_vsync _ _ Hev), (render_events_no_sleep _ _ Hev),
      (render_events_targets _ _ Hev), Pv, Pp, Pr, Ps, Pt, Hcnt, Hro'.
    cbn [filter readouts flat_map app length forallb andb].
    rewrite app_nil_r, Nat.add_0_r.
    repeat (split; [reflexivity || lia|]).
    unfold sensor_after.
    destruct (Hpriv s2 (same_private_refl s2)) as (A1&A2&A3&A4&A5&A6&A7&A8&A9).
    repeat (split; [assumption|]).
    rewrite <- Hpend, Hslot, Hro'. reflexivity.
  - (* the frame is handed over after the render stage *)
    eexists _, _, _. split; [reflexivity|].
    assert (Hro' : readouts rendered = [] /\ pending cb ct = [(cb', ct)]).
    { unfold pending at 1 in Hro. rewrite Ecb' in Hro.
      unfold pending in *. destruct (cb =? NULL).
      - destruct (readouts rendered); discriminate.
      - destruct (readouts rendered) as [|r l]; simpl in Hro.
        + injection Hro as ->. split; reflexivity.
        + destruct l; discriminate. }
    destruct Hro' as [Hro1 Hro2].
    fields. replace (S (S (ticks w2)) - 2)%nat with (ticks w2) by lia.
    rewrite Hclk in *.
    rewrite !filter_app, !forallb_app, !readouts_app, !length_app.
    rewrite (render_events_no_vsync _ _ Hev), (render_events_no_sleep _ _ Hev),
      (render_events_targets _ _ Hev), Pv, Pp, Pr, Ps, Pt, Hcnt, Hro1, Hro2.
    cbn [filter readouts flat_map app length forallb andb is_vsync is_pixel
         is_sleep pixel_targets].
    rewrite Nat.add_0_r.
    repeat (split; [reflexivity || lia|]).
    unfold sensor_after.
    destruct (Hpriv (publish cb' ct s2) (same_private_publish cb' ct s2))
      as (A1&A2&A3&A4&A5&A6&A7&A8&A9).
    repeat (split; [assumption|]).
    rewrite <- Hpend, Hro2. reflexivity.
Qed.

End Iteration.

(* ================================================================= *)
(** ** Calls from other threads *)

Section OtherThreads.

Lemma call_private (c : client_call) (s : Sensor) :
  mNextCapturedBuffer (call c s) = mNextCapturedBuffer s /\
  mNextCaptureTime (call c s) = mNextCaptureTime s /\
  mStartupTime (call c s) = mStartupTime s /\
  mGotVSync (call c s) = mGotVSync s /\
  slot (call c s) = slot s.
Proof. destruct c; repeat split. Qed.

Lemma calls_private (cs : list client_call) :
  forall s : Sensor,
    mNextCapturedBuffer (calls cs s) = mNextCapturedBuffer s /\
    mNextCaptureTime (calls cs s) = mNextCaptureTime s /\
    mStartupTime (calls cs s) = mStartupTime s /\
    mGotVSync (calls cs s) = mGotVSync s /\
    slot (calls cs s) = slot s.
Proof.
  induction cs as [|c cs IH]; intros s.
  - repeat split.
  - change (calls (c :: cs) s) with (calls cs (call c s)).
    destruct (IH (call c s)) as (A & B & C & D & E).
    destruct (call_private c s) as (A' & B' & C' & D' & E').
    repeat split; congruence.
Qed.

Lemma concurrent_vsync (c : concurrent_step) (s : Sensor) :
  mGotVSync (concurrent c s) = mGotVSync s || is_latch c.
Proof.
  destruct c as [| b t | c]; simpl.
  - now rewrite orb_true_r.
  - now rewrite orb_false_r.
  - rewrite orb_false_r. apply call_private.
Qed.

(** The VSync flag after a wait: raised iff the capture loop went through
    stage 1 in the meantime. *)
Lemma during_vsync (cs : list concurrent_step) :
  forall s : Sensor,
    mGotVSync (during cs s) = mGotVSync s || existsb is_latch cs.
Proof.
  induction cs as [|c cs IH]; intros s.
  - simpl. now rewrite orb_false_r.
  - change (during (c :: cs) s) with (during cs (concurrent c s)).
    rewrite IH, concurrent_vsync. simpl. now rewrite orb_assoc.
Qed.

End OtherThreads.

(* ================================================================= *)
(** ** The design properties of the capture loop *)

Lemma threadLoop_facts (s : Sensor) (w : World) :
  let r := threadLoop s w in
  r = (true, sensor_of r, world_of r, trace_of r) /\
  sensor_after s w (sensor_of r) /\
  clock (world_of r) = clock w /\
  (ticks w + 3 <= ticks (world_of r))%nat /\
  exists tail,
    trace_of r = EvVSync :: tail /\
    filter is_vsync tail = [] /\
    forallb (pixel_targets (mNextBuffer s)) tail = true /\
    length (filter is_pixel tail)
      = (if mNextBuffer s =? NULL then 0%nat
         else (Z.to_nat (snd kResolution) * Z.to_nat (fst kResolution))%nat) /\
    readouts tail = pending (mNextCapturedBuffer s) (mNextCaptureTime s) /\
    filter is_sleep tail = pacing (frameEndAt s w) (workDoneAt s w).
Proof.
  unfold workDoneAt.
  destruct (threadLoop_spec s w)
    as (s' & w' & tail & E & Hv & Ht & Hn & Hr & Hs & Hc & Hk & Ha).
  cbv zeta. rewrite E. unfold sensor_of, world_of, trace_of. cbn [fst snd].
  repeat (split; [assumption || reflexivity|]).
  exists tail. repeat (split; [assumption || reflexivity|]). assumption.
Qed.

(** C9: every iteration of the capture loop signals VSync exactly once, as
    the first thing it does, hence before any pixel of the iteration is
    written; this holds for every sensor state, a missing destination buffer
    included, in which case no pixel is written, and the iteration completes
    and asks to be run again. *)
Theorem vsync_once_before_render (s : Sensor) (w : World) :
  exists s' w' tail,
    threadLoop s w = (true, s', w', EvVSync :: tail) /\
    filter is_vsync (EvVSync :: tail) = [EvVSync] /\
    mGotVSync s' = true /\
    length (filter is_pixel tail)
      = (if mNextBuffer s =? NULL then 0%nat
         else (Z.to_nat (snd kResolution) * Z.to_nat (fst kResolution))%nat).
Proof.
  destruct (threadLoop_spec s w)
    as (s' & w' & tail & E & Hv & Ht & Hn & Hr & Hs & Hc & Hk & Ha).
  exists s', w', tail. split; [exact E|].
  split; [cbn [filter is_vsync]; now rewrite Hv|].
  split; [apply Ha | exact Hn].
Qed.

(** C5: one-frame pipeline delay.  Take any iteration N (from sensor [s] in
    world [w]), any calls [cs] the clients make afterwards, and the next
    iteration N+1.  Every pixel written in N goes to the buffer latched in N
    (a whole frame of them if that buffer is not NULL); the frame handed over
    in N is the one latched before N, and the frame handed over in N+1 is
    the buffer latched in N, with the timestamp N gave it. *)
Theorem one_frame_pipeline_delay (s : Sensor) (w : World)
    (cs : list client_call) :
  let r1 := threadLoop s w in
  let r2 := threadLoop (calls cs (sensor_of r1)) (world_of r1) in
  forallb (pixel_targets (mNextBuffer s)) (trace_of r1) = true /\
  length (filter is_pixel (trace_of r1))
    = (if mNextBuffer s =? NULL then 0%nat
       else (Z.to_nat (snd kResolution) * Z.to_nat (fst kResolution))%nat) /\
  readouts (trace_of r1)
    = pending (mNextCapturedBuffer s) (mNextCaptureTime s) /\
  readouts (trace_of r2) = pending (mNextBuffer s) (captureTimeAt s w) /\
  slot (sensor_of r2)
    = (if mNextBuffer s =? NULL then slot (sensor_of r1)
       else (mNextBuffer s, captureTimeAt s w)).
Proof.
  intros r1 r2.
  destruct (threadLoop_facts s w)
    as (_ & Ha & _ & _ & tail & Etr & _ & Ht & Hn & Hr & _).
  fold r1 in Ha, Etr.
  destruct (threadLoop_facts (calls cs (sensor_of r1)) (world_of r1))
    as (_ & Ha2 & _ & _ & tail2 & Etr2 & _ & _ & _ & Hr2 & _).
  fold r2 in Ha2, Etr2.
  destruct (calls_private cs (sensor_of r1)) as (C1 & C2 & _ & _ & C5).
  destruct Ha as (_ & _ & A3 & A4 & _).
  rewrite C1, C2, A3, A4 in Hr2.
  rewrite Etr, Etr2.
  change (readouts (EvVSync :: tail)) with (readouts tail).
  change (readouts (EvVSync :: tail2)) with (readouts tail2).
  cbn [forallb filter is_pixel pixel_targets andb].
  repeat (split; [assumption|]).
  unfold sensor_after in Ha2.
  destruct Ha2 as (_ & _ & _ & _ & _ & _ & _ & _ & _ & Hslot).
  rewrite Hslot, C1, C2, A3, A4, C5. unfold pending.
  destruct (mNextBuffer s =? NULL); reflexivity.
Qed.

(** The first iteration after [readyToRun] hands over nothing. *)
Lemma first_iteration_hands_over_nothing (s : Sensor) (w : World)
    (cs : list client_call) :
  let '(_, s0, w0) := readyToRun s w in
  readouts (trace_of (threadLoop (calls cs s0) w0)) = [].
Proof.
  unfold readyToRun, systemTime. cbv beta iota zeta.
  match goal with |- context [threadLoop ?s1 ?w1] =>
    destruct (threadLoop_facts s1 w1)
      as (_ & _ & _ & _ & tail & Etr & _ & _ & _ & Hr & _);
    destruct (calls_private cs
                (set_mNextCapturedBuffer NULL
                   (set_mNextCaptureTime 0
                      (set_mStartupTime (wrap_s64 (clock w (ticks w))) s))))
      as (C1 & _)
  end.
  rewrite Etr. change (readouts (EvVSync :: tail)) with (readouts tail).
  rewrite Hr, C1. reflexivity.
Qed.

(* ================================================================= *)
(** ** The handoff slot and the two waits *)

Lemma waitForNewFrame_cases (reltime res : Z) (cs : list concurrent_step)
    (s : Sensor) :
  let d := slot_read_in cs s in
  (mCapturedBuffer d <> NULL /\
   (mCapturedBuffer s <> NULL \/ res = OK) /\
   waitForNewFrame reltime res cs s
     = (true, Some (mCaptureTime d), set_mCapturedBuffer NULL d)) \/
  (mCapturedBuffer s = NULL /\
   (res <> OK \/ mCapturedBuffer (during cs s) = NULL) /\
   waitForNewFrame reltime res cs s = (false, None, during cs s)).
Proof.
  unfold waitForNewFrame, slot_read_in.
  destruct (Z.eqb_spec (mCapturedBuffer s) NULL) as [E | E].
  - destruct (Z.eqb_spec res TIMED_OUT) as [T | T].
    + right. split; [exact E|]. split; [|reflexivity].
      left. rewrite T. discriminate.
    + destruct (Z.eqb_spec res OK) as [O | O]; cbn [negb orb].
      * destruct (Z.eqb_spec (mCapturedBuffer (during cs s)) NULL) as [N | N].
        -- right. auto.
        -- left. auto.
      * right. auto.
  - left. auto.
Qed.

(** Every successful [waitForNewFrame] leaves the slot empty, and the
    capture loop's handover overwrites whatever the slot held. *)
Lemma waitForNewFrame_consumes (reltime res : Z) (cs : list concurrent_step)
    (s s' : Sensor) (out : option Z) :
  waitForNewFrame reltime res cs s = (true, out, s') ->
  mCapturedBuffer s' = NULL.
Proof.
  destruct (waitForNewFrame_cases reltime res cs s)
    as [(_ & _ & E) | (_ & _ & E)]; rewrite E; intros H.
  - injection H as _ <-. reflexivity.
  - discriminate.
Qed.

Lemma threadLoop_overwrites_slot (s : Sensor) (w : World) :
  mNextCapturedBuffer s <> NULL ->
  slot (sensor_of (threadLoop s w))
    = (mNextCapturedBuffer s, mNextCaptureTime s).
Proof.
  intros H.
  destruct (threadLoop_facts s w) as (_ & Ha & _).
  destruct Ha as (_ & _ & _ & _ & _ & _ & _ & _ & _ & Hslot).
  rewrite Hslot. unfold pending.
  destruct (Z.eqb_spec (mNextCapturedBuffer s) NULL); [contradiction|].
  reflexivity.
Qed.

(** C6: the handoff slot is the single pair (mCapturedBuffer,
    mCaptureTime), and the capture loop overwrites it.  Take a sensor with a
    frame A pending and a buffer B latched, whatever its slot holds, and run
    two iterations with no [waitForNewFrame] in between (the clients may
    call the control surface).  The first iteration publishes A over
    whatever was in the slot; the second publishes B over the unread A.  A
    later [waitForNewFrame] then delivers B's timestamp only and clears the
    slot, after which A is gone: a further call whose wait times out with
    nothing published fails.  Consumption is destructive on the waiting
    path too: a call that finds the slot empty and is woken with a frame
    published during its wait delivers that frame and clears the slot, and
    no successful call ever leaves a frame in the slot. *)
Theorem handoff_single_slot (s : Sensor) (w : World) (cs : list client_call)
    (reltime res : Z) (wcs : list concurrent_step)
    (s0 : Sensor) (cs0 : list concurrent_step) (b t : Z) :
  mNextCapturedBuffer s <> NULL ->
  mNextBuffer s <> NULL ->
  mCapturedBuffer s0 = NULL ->
  slot (during cs0 s0) = (b, t) ->
  b <> NULL ->
  let r1 := threadLoop s w in
  let r2 := threadLoop (calls cs (sensor_of r1)) (world_of r1) in
  let tB := mNextCaptureTime (sensor_of r1) in
  slot (sensor_of r1) = (mNextCapturedBuffer s, mNextCaptureTime s) /\
  slot (sensor_of r2) = (mNextBuffer s, tB) /\
  waitForNewFrame reltime res wcs (sensor_of r2)
    = (true, Some tB, set_mCapturedBuffer NULL (sensor_of r2)) /\
  waitForNewFrame reltime TIMED_OUT [] (set_mCapturedBuffer NULL (sensor_of r2))
    = (false, None, set_mCapturedBuffer NULL (sensor_of r2)) /\
  waitForNewFrame reltime OK cs0 s0
    = (true, Some t, set_mCapturedBuffer NULL (during cs0 s0)) /\
  (forall reltime1 res1 cs1 s1,
     fst (fst (waitForNewFrame reltime1 res1 cs1 s1)) = true ->
     mCapturedBuffer (snd (waitForNewFrame reltime1 res1 cs1 s1)) = NULL).
Proof.
  intros HA HB H0 Hslot Hb r1 r2 tB.
  (* the two iterations *)
  pose proof (threadLoop_overwrites_slot s w HA) as S1. fold r1 in S1.
  destruct (threadLoop_facts s w) as (_ & Ha & _). fold r1 in Ha.
  destruct Ha as (_ & _ & A3 & _).
  destruct (calls_private cs (sensor_of r1)) as (C1 & C2 & _).
  assert (HB' : mNextCapturedBuffer (calls cs (sensor_of r1)) <> NULL)
    by (rewrite C1, A3; exact HB).
  pose proof (threadLoop_overwrites_slot (calls cs (sensor_of r1))
                (world_of r1) HB') as S2.
  fold r2 in S2. rewrite C1, C2, A3 in S2. fold tB in S2.
  assert (F2 : mCapturedBuffer (sensor_of r2) = mNextBuffer s
               /\ mCaptureTime (sensor_of r2) = tB).
  { unfold slot in S2. injection S2 as E1 E2. split; assumption. }
  destruct F2 as [F2b F2t].
  split; [exact S1|]. split; [exact S2|].
  (* reading the slot after them *)
  split.
  { destruct (waitForNewFrame_cases reltime res wcs (sensor_of r2))
      as [(_ & _ & E) | (N & _)].
    - rewrite E. unfold slot_read_in.
      destruct (Z.eqb_spec (mCapturedBuffer (sensor_of r2)) NULL) as [N|_];
        [congruence|]. now rewrite F2t.
    - congruence. }
  split.
  { destruct (waitForNewFrame_cases reltime TIMED_OUT []
                (set_mCapturedBuffer NULL (sensor_of r2)))
      as [(N & _) | (_ & _ & E)].
    - exfalso. apply N. reflexivity.
    - exact E. }
  (* the waiting path *)
  unfold slot in Hslot. injection Hslot as Hsb Hst.
  split.
  { destruct (waitForNewFrame_cases reltime OK cs0 s0)
      as [(_ & _ & E) | (_ & [N | N] & _)].
    - rewrite E. unfold slot_read_in.
      destruct (Z.eqb_spec (mCapturedBuffer s0) NULL) as [_|N];
        [|contradiction]. now rewrite Hst.
    - exfalso. apply N. reflexivity.
    - congruence. }
  intros reltime1 res1 cs1 s1 Hok.
  destruct (waitForNewFrame reltime1 res1 cs1 s1) as [[ok out] s'] eqn:E.
  cbn [fst snd] in *. subst ok.
  exact (waitForNewFrame_consumes reltime1 res1 cs1 s1 s' out E).
Qed.

Lemma handoff_single_slot_witness :
  let s := set_mCapturedBuffer 1234
             (set_mCaptureTime 5
                (set_mNextCaptureTime 77
                   (set_mNextCapturedBuffer 4096
                      (setDestinationBuffer 8192 640 Sensor_new)))) in
  let w := mkWorld (fun n => Z.of_nat n * 1000000) 0 (fun _ => 0) 0
                   2147483647 (fun _ _ _ _ _ => 0) in
  let r1 := threadLoop s w in
  let r2 := threadLoop (calls [SetSensitivity 200] (sensor_of r1))
                       (world_of r1) in
  let tB := mNextCaptureTime (sensor_of r1) in
  slot (sensor_of r1) = (4096, 77) /\
  slot (sensor_of r2) = (8192, tB) /\
  waitForNewFrame 1000 TIMED_OUT [] (sensor_of r2)
    = (true, Some tB, set_mCapturedBuffer NULL (sensor_of r2)) /\
  waitForNewFrame 1000 TIMED_OUT [] (set_mCapturedBuffer NULL (sensor_of r2))
    = (false, None, set_mCapturedBuffer NULL (sensor_of r2)) /\
  waitForNewFrame 1000 OK [LoopReadout 4096 100; LoopReadout 8192 200]
                  Sensor_new
    = (true, Some 200,
       set_mCapturedBuffer NULL
         (during [LoopReadout 4096 100; LoopReadout 8192 200] Sensor_new)) /\
  (forall reltime1 res1 cs1 s1,
     fst (fst (waitForNewFrame reltime1 res1 cs1 s1)) = true ->
     mCapturedBuffer (snd (waitForNewFrame reltime1 res1 cs1 s1)) = NULL).
Proof.
  intros s w.
  apply (handoff_single_slot s w [SetSensitivity 200] 1000 TIMED_OUT []
           Sensor_new [LoopReadout 4096 100; LoopReadout 8192 200] 8192 200).
  - vm_compute. discriminate.
  - vm_compute. discriminate.
  - reflexivity.
  - reflexivity.
  - vm_compute. discriminate.
Defined.

(** C7, as stated, fails for [waitForVSync]: a wait that times out while the
    capture loop signals VSync before the caller owns the lock again
    returns true. *)
Lemma waitForVSync_true_on_timeout :
  fst (waitForVSync 1000000 TIMED_OUT [LoopLatch] Sensor_new) = true.
Proof. reflexivity. Qed.

(** C7, amended.  [waitForNewFrame] returns false when its wait times out
    and when it fails with any other error, storing no timestamp and leaving
    the slot alone; when it returns true it has stored the capture time of
    the frame that was in the slot, and that frame's buffer was not NULL.
    [waitForVSync] returns false when its wait fails with an error other
    than the timeout; when the wait returns OK or TIMED_OUT it returns the
    VSync flag, which is true exactly when the capture loop signalled VSync
    during the wait: a timed-out wait with no VSync returns false. *)
Theorem wait_results (reltime res : Z) (cs : list concurrent_step)
    (s : Sensor) :
  (res <> OK -> res <> TIMED_OUT ->
     fst (waitForVSync reltime res cs s) = false) /\
  (res = OK \/ res = TIMED_OUT ->
     fst (waitForVSync reltime res cs s) = existsb is_latch cs) /\
  (mCapturedBuffer s = NULL -> res <> OK ->
     waitForNewFrame reltime res cs s = (false, None, during cs s)) /\
  (fst (fst (waitForNewFrame reltime res cs s)) = true ->
     mCapturedBuffer (slot_read_in cs s) <> NULL /\
     waitForNewFrame reltime res cs s
       = (true, Some (mCaptureTime (slot_read_in cs s)),
          set_mCapturedBuffer NULL (slot_read_in cs s))).
Proof.
  split; [|split; [|split]].
  - intros HO HT. unfold waitForVSync.
    destruct (Z.eqb_spec res OK); [contradiction|].
    destruct (Z.eqb_spec res TIMED_OUT); [contradiction|]. reflexivity.
  - intros H. unfold waitForVSync.
    assert (E : negb (res =? OK) && negb (res =? TIMED_OUT) = false).
    { destruct H as [-> | ->]; reflexivity. }
    rewrite E. cbn [fst]. now rewrite during_vsync.
  - intros HN HO.
    destruct (waitForNewFrame_cases reltime res cs s)
      as [(_ & [H | H] & _) | (_ & _ & E)]; try contradiction. exact E.
  - intros H.
    destruct (waitForNewFrame_cases reltime res cs s)
      as [(N & _ & E) | (_ & _ & E)].
    + split; assumption.
    + rewrite E in H. discriminate.
Qed.

Lemma wait_results_witness :
  fst (waitForVSync 1000 (-22) [LoopLatch] Sensor_new) = false /\
  fst (waitForVSync 1000 TIMED_OUT [] Sensor_new) = false /\
  waitForNewFrame 1000 TIMED_OUT [] Sensor_new
    = (false, None, Sensor_new) /\
  waitForNewFrame 1000 OK [LoopReadout 4096 77] Sensor_new
    = (true, Some 77, set_mCapturedBuffer NULL (publish 4096 77 Sensor_new)).
Proof.
  split; [|split; [|split]].
  - apply (wait_results 1000 (-22) [LoopLatch] Sensor_new);
      vm_compute; discriminate.
  - apply (proj1 (proj2 (wait_results 1000 TIMED_OUT [] Sensor_new))).
    right. reflexivity.
  - apply (proj1 (proj2 (proj2 (wait_results 1000 TIMED_OUT [] Sensor_new)))).
    + reflexivity.
    + vm_compute. discriminate.
  - apply (proj2 (proj2 (proj2
             (wait_results 1000 OK [LoopReadout 4096 77] Sensor_new)))).
    reflexivity.
Defined.

(* ================================================================= *)
(** ** Pacing and the simulated timeline *)

Lemma iterationStart_in_range (w : World) :
  clock_in_range w -> 0 <= iterationStart w < 2 ^ 62.
Proof.
  intros H. unfold iterationStart. specialize (H (ticks w)).
  rewrite wrap_s64_small; lia.
Qed.

Lemma threadLoop_sleeps (s : Sensor) (w : World) :
  filter is_sleep (trace_of (threadLoop s w))
    = pacing (frameEndAt s w) (workDoneAt s w).
Proof.
  destruct (threadLoop_facts s w)
    as (_ & _ & _ & _ & tail & Etr & _ & _ & _ & _ & Hs).
  rewrite Etr. cbn [filter is_sleep]. exact Hs.
Qed.

(** C8: in every iteration (the clock readings and the frame duration
    staying clear of 64-bit overflow), the thread sleeps if and only if the
    work was done earlier than the deadline (iteration start + frame
    duration) minus the 2 ms tolerance; the time it asks to sleep is what is
    left until the deadline; and if the work took longer than the frame
    duration there is no sleep at all. *)
Theorem pacing_sleeps_iff_early (s : Sensor) (w : World) :
  let start := iterationStart w in
  let work := workDoneAt s w in
  let deadline := start + mFrameDuration s in
  let sleeps := filter is_sleep (trace_of (threadLoop s w)) in
  clock_in_range w ->
  0 <= mFrameDuration s < 2 ^ 62 ->
  (work < deadline - 2000000 <->
   sleeps = [EvSleep (Z.quot (deadline - work) 1000000000)
                     (Z.rem (deadline - work) 1000000000)]) /\
  (deadline - 2000000 <= work <-> sleeps = []) /\
  Z.quot (deadline - work) 1000000000 * 1000000000
    + Z.rem (deadline - work) 1000000000 = deadline - work /\
  (mFrameDuration s < work - start -> sleeps = []).
Proof.
  intros start work deadline sleeps Hclk Hd.
  assert (Hs : 0 <= start < 2 ^ 62)
    by (unfold start; apply iterationStart_in_range, Hclk).
  assert (Hw : 0 <= work < 2 ^ 62).
  { unfold work, workDoneAt. specialize (Hclk
      (ticks (world_of (threadLoop s w)) - 2)%nat).
    rewrite wrap_s64_small; lia. }
  assert (Hsl : sleeps = pacing deadline work).
  { unfold sleeps. rewrite threadLoop_sleeps. unfold frameEndAt.
    fold start work. unfold deadline. now rewrite wrap_s64_small by lia. }
  assert (Hp : pacing deadline work
               = if work <? deadline - 2000000
                 then [EvSleep (Z.quot (deadline - work) 1000000000)
                               (Z.rem (deadline - work) 1000000000)]
                 else []).
  { unfold pacing, timeAccuracy. unfold deadline.
    now rewrite !wrap_s64_small by lia. }
  rewrite Hsl, Hp.
  destruct (Z.ltb_spec work (deadline - 2000000)) as [L | L].
  - repeat split; try (intros; lia || reflexivity || discriminate).
    rewrite Z.mul_comm. symmetry. apply Z.quot_rem'.
  - repeat split; try (intros; lia || reflexivity || discriminate).
    rewrite Z.mul_comm. symmetry. apply Z.quot_rem'.
Qed.

Lemma pacing_sleeps_iff_early_witness :
  let s := setDestinationBuffer 4096 640 Sensor_new in
  let w := mkWorld (fun n => if (n <=? 1)%nat then 1000 else 20001000) 0
                   (fun _ => 0) 0 2147483647 (fun _ _ _ _ _ => 0) in
  let start := iterationStart w in
  let work := workDoneAt s w in
  let deadline := start + mFrameDuration s in
  let sleeps := filter is_sleep (trace_of (threadLoop s w)) in
  (work < deadline - 2000000 <->
   sleeps = [EvSleep (Z.quot (deadline - work) 1000000000)
                     (Z.rem (deadline - work) 1000000000)]) /\
  (deadline - 2000000 <= work <-> sleeps = []) /\
  Z.quot (deadline - work) 1000000000 * 1000000000
    + Z.rem (deadline - work) 1000000000 = deadline - work /\
  (mFrameDuration s < work - start -> sleeps = []).
Proof.
  intros s w.
  apply (pacing_sleeps_iff_early s w).
  - intros n. cbn [clock w]. destruct (n <=? 1)%nat; lia.
  - vm_compute. split; [discriminate | reflexivity].
Defined.

(** C2, as stated, fails.  A sensor is started at wall-clock time 1000 and
    latches a buffer in each of two iterations; the first iteration starts at
    once and its work is done 50 ms later.  The two capture timestamps are
    50 ms apart: the real time between the two iteration starts, not the
    frame period of 33341680 ns. *)
Lemma capture_time_follows_wall_clock :
  let w := mkWorld (fun n => if (n <=? 1)%nat then 1000 else 50001000) 0
                   (fun _ => 0) 0 2147483647 (fun _ _ _ _ _ => 0) in
  let '(_, s0, w0) := readyToRun Sensor_new w in
  let r1 := threadLoop (setDestinationBuffer 4096 640 s0) w0 in
  let r2 := threadLoop (setDestinationBuffer 8192 640 (sensor_of r1))
                       (world_of r1) in
  framePeriod = 33341680 /\
  mNextCaptureTime (sensor_of r2) - mNextCaptureTime (sensor_of r1)
    = 50000000 /\
  mNextCaptureTime (sensor_of r2) - mNextCaptureTime (sensor_of r1)
    <> framePeriod.
Proof.
  cbv zeta. unfold readyToRun, systemTime. cbv beta iota zeta.
  cbn [clock ticks rand_stream draws rand_max scene].
  set (w := mkWorld _ 1 _ _ _ _).
  set (s := setDestinationBuffer 4096 640 _).
  destruct (threadLoop_facts s w) as (_ & Ha & Hc & Hk & _).
  set (r1 := threadLoop s w) in *.
  destruct (threadLoop_facts (setDestinationBuffer 8192 640 (sensor_of r1))
                             (world_of r1)) as (_ & Ha2 & _).
  set (r2 := threadLoop _ (world_of r1)) in *.
  destruct Ha as (_ & _ & _ & A4 & A5 & _).
  destruct Ha2 as (_ & _ & _ & B4 & _).
  rewrite A4, B4. unfold captureTimeAt, iterationStart.
  cbn [setDestinationBuffer set_mNextStride set_mNextBuffer mStartupTime].
  rewrite A5, Hc.
  assert (E2 : clock w (ticks (world_of r1)) = 50001000).
  { subst w. cbn [clock ticks] in *.
    destruct (Nat.leb_spec (ticks (world_of r1)) 1); [lia | reflexivity]. }
  rewrite E2. subst s w. vm_compute.
  repeat split; discriminate.
Qed.

(** C2, amended: the capture timestamp assigned in an iteration is the wall
    clock at the start of the iteration, counted from the startup time, plus
    one row readout time and the vertical blank.  From one iteration to the
    next (whatever the clients call in between) it advances by exactly the
    real time that elapsed between the two iteration starts, and so is
    non-decreasing as long as the system clock is. *)
Theorem capture_time_tracks_wall_clock (s : Sensor) (w : World)
    (cs : list client_call) :
  let r1 := threadLoop s w in
  let r2 := threadLoop (calls cs (sensor_of r1)) (world_of r1) in
  let t1 := mNextCaptureTime (sensor_of r1) in
  let t2 := mNextCaptureTime (sensor_of r2) in
  let start1 := iterationStart w in
  let start2 := iterationStart (world_of r1) in
  clock_in_range w ->
  0 <= mStartupTime s < 2 ^ 62 ->
  t1 = start1 - mStartupTime s + kRowReadoutTime + kMinVerticalBlank /\
  t2 - t1 = start2 - start1 /\
  (start1 <= start2 -> t1 <= t2).
Proof.
  intros r1 r2 t1 t2 start1 start2 Hclk H0.
  destruct (threadLoop_facts s w) as (_ & Ha & Hc & _).
  fold r1 in Ha, Hc.
  assert (H1 : 0 <= start1 < 2 ^ 62)
    by (unfold start1; apply iterationStart_in_range, Hclk).
  assert (H2 : 0 <= start2 < 2 ^ 62).
  { unfold start2. apply iterationStart_in_range.
    intros n. rewrite Hc. apply Hclk. }
  destruct (threadLoop_facts (calls cs (sensor_of r1)) (world_of r1))
    as (_ & Ha2 & _).
  fold r2 in Ha2.
  destruct (calls_private cs (sensor_of r1)) as (_ & _ & C3 & _).
  destruct Ha as (_ & _ & _ & A4 & A5 & _).
  destruct Ha2 as (_ & _ & _ & B4 & _).
  assert (K : kRowReadoutTime + kMinVerticalBlank = 79441) by reflexivity.
  assert (E1 : t1 = start1 - mStartupTime s + 79441).
  { unfold t1. rewrite A4. unfold captureTimeAt. fold start1. rewrite K.
    rewrite !wrap_s64_small; rewrite ?wrap_s64_small; lia. }
  assert (E2 : t2 = start2 - mStartupTime s + 79441).
  { unfold t2. rewrite B4. unfold captureTimeAt. fold start2.
    rewrite C3, A5, K.
    rewrite !wrap_s64_small; rewrite ?wrap_s64_small; lia. }
  assert (K1 : kRowReadoutTime = 69441) by reflexivity.
  assert (K2 : kMinVerticalBlank = 10000) by reflexivity.
  repeat split; lia.
Qed.

Lemma capture_time_tracks_wall_clock_witness :
  let s := setDestinationBuffer 4096 640 (set_mStartupTime 1000 Sensor_new) in
  let w := mkWorld (fun n => if (n <=? 1)%nat then 1000 else 50001000) 1
                   (fun _ => 0) 0 2147483647 (fun _ _ _ _ _ => 0) in
  let r1 := threadLoop s w in
  let r2 := threadLoop (calls [SetDestinationBuffer 8192 640] (sensor_of r1))
                       (world_of r1) in
  let t1 := mNextCaptureTime (sensor_of r1) in
  let t2 := mNextCaptureTime (sensor_of r2) in
  let start1 := iterationStart w in
  let start2 := iterationStart (world_of r1) in
  t1 = start1 - mStartupTime s + kRowReadoutTime + kMinVerticalBlank /\
  t2 - t1 = start2 - start1 /\
  (start1 <= start2 -> t1 <= t2).
Proof.
  intros s w.
  apply (capture_time_tracks_wall_clock s w [SetDestinationBuffer 8192 640]).
  - intros n. cbn [clock w]. destruct (n <=? 1)%nat; lia.
  - vm_compute. split; [discriminate | reflexivity].
Defined.


(* ################################################################# *)
(** * Further properties of the sensor code *)

(* ================================================================= *)
(** ** Gain and saturation, for every gain *)

(** A check made on every element of a range of naturals holds on the
    corresponding range of integers. *)
Lemma forallb_seq_Z (P : Z -> bool) (a n : nat) :
  forallb (fun k => P (Z.of_nat k)) (seq a n) = true ->
  forall z, Z.of_nat a <= z < Z.of_nat a + Z.of_nat n -> P z = true.
Proof.
  intros H z Hz. rewrite forallb_forall in H.
  specialize (H (Z.to_nat z)). rewrite Z2Nat.id in H by lia.
  apply H, in_seq. lia.
Qed.

(** X1: at each supported sensitivity [g] and for every electron count, the
    value the noise is added to is
    [min(min(e, kSaturationElectrons) * g / 50, kMaxRawValue) + kBlackLevel];
    in particular it never decreases when the electron count grows. *)
Theorem pre_noise_closed_form (g e e' : Z) :
  In g kAvailableSensitivities -> 0 <= e <= e' ->
  rawCountPreNoise (totalGain_of g) e
    = Z.min (Z.min e kSaturationElectrons * (g / 50)) kMaxRawValue
      + kBlackLevel /\
  rawCountPreNoise (totalGain_of g) e <= rawCountPreNoise (totalGain_of g) e'.
Proof.
  intros Hg He.
  rewrite !rawCountPreNoise_formula by (assumption || lia).
  split; [reflexivity|].
  assert (Hp : 0 <= g / 50).
  { unfold kAvailableSensitivities in Hg. simpl in Hg.
    destruct Hg as [<- | [<- | [<- | [<- | [<- | []]]]]]; vm_compute;
      discriminate. }
  assert (Hm : Z.min e kSaturationElectrons * (g / 50)
               <= Z.min e' kSaturationElectrons * (g / 50)).
  { apply Z.mul_le_mono_nonneg_r; lia. }
  lia.
Qed.

Lemma pre_noise_closed_form_witness :
  rawCountPreNoise (totalGain_of 400) 300
    = Z.min (Z.min 300 kSaturationElectrons * (400 / 50)) kMaxRawValue
      + kBlackLevel /\
  rawCountPreNoise (totalGain_of 400) 300
    <= rawCountPreNoise (totalGain_of 400) 700.
Proof.
  apply (pre_noise_closed_form 400 300 700).
  - simpl. tauto.
  - lia.
Defined.

(** X2: whatever the gain and the electron count (even where the 16-bit
    conversion wraps), the count after the A/D clamp lies in
    [0, kMaxRawValue] and the value the noise is added to lies in
    [kBlackLevel, kMaxRawValue + kBlackLevel]: adding the black level never
    overflows [uint16_t]. *)
Theorem pre_noise_bounds (totalGain : spec_float) (e : Z) :
  0 <= rawCountClamped totalGain e <= kMaxRawValue /\
  rawCountPreNoise totalGain e = rawCountClamped totalGain e + kBlackLevel /\
  kBlackLevel <= rawCountPreNoise totalGain e <= kMaxRawValue + kBlackLevel.
Proof.
  assert (Hc : 0 <= rawCountConverted totalGain (saturate e) < 2 ^ 16).
  { unfold rawCountConverted, u16_of_f32, wrap_u16.
    apply Z.mod_pos_bound. reflexivity. }
  assert (Hk : 0 <= rawCountClamped totalGain e <= kMaxRawValue).
  { unfold rawCountClamped. rewrite clampRaw_min.
    unfold kMaxRawValue in *. lia. }
  assert (Hp : rawCountPreNoise totalGain e
               = rawCountClamped totalGain e + kBlackLevel).
  { unfold rawCountPreNoise. apply wrap_u16_small.
    unfold kMaxRawValue, kBlackLevel in *. change (2 ^ 16) with 65536. lia. }
  rewrite Hp. unfold kBlackLevel in *. repeat split; lia.
Qed.

(** X3: the gains for which saturation is reported correctly.  For every
    gain from 100 to 1638 a pixel at or above saturation is reported at
    exactly [kMaxRawValue]; for every gain below 100 it stays below
    [kMaxRawValue]; and 1638 is where the unbroken range ends, since at gain
    1639 the 16-bit conversion wraps and the pixel is reported at 24. *)
Theorem gain_range_for_saturation (g e : Z) :
  kSaturationElectrons <= e ->
  (100 <= g <= 1638 -> rawCountClamped (totalGain_of g) e = kMaxRawValue) /\
  (0 <= g < 100 -> rawCountClamped (totalGain_of g) e < kMaxRawValue) /\
  rawCountClamped (totalGain_of 1639) e = 24.
Proof.
  intros He.
  rewrite !(rawCountClamped_saturate _ e), (saturate_above e He).
  split; [|split].
  - intros Hg.
    assert (Hall : forallb (fun n => gain_reaches_max (Z.of_nat n))
                           (seq 100 1539) = true)
      by (vm_compute; reflexivity).
    apply Z.eqb_eq.
    apply (forallb_seq_Z gain_reaches_max 100 1539 Hall g). lia.
  - intros Hg.
    assert (Hall : forallb (fun n => gain_below_max (Z.of_nat n))
                           (seq 0 100) = true)
      by (vm_compute; reflexivity).
    apply Z.ltb_lt.
    apply (forallb_seq_Z gain_below_max 0 100 Hall g). lia.
  - vm_compute. reflexivity.
Qed.

Lemma gain_range_for_saturation_witness :
  rawCountClamped (totalGain_of 1234) 5000 = kMaxRawValue /\
  rawCountClamped (totalGain_of 60) 5000 < kMaxRawValue.
Proof.
  destruct (gain_range_for_saturation 1234 5000) as (H & _).
  { vm_compute. discriminate. }
  destruct (gain_range_for_saturation 60 5000) as (_ & H' & _).
  { vm_compute. discriminate. }
  split; [apply H | apply H']; lia.
Defined.

(** X4: at a supported sensitivity, whatever the electron count, the
    variance passed to [sqrtf_approx] is a positive normal [float]: never
    zero, subnormal, infinite or NaN. *)
Theorem noise_variance_in_range (g e : Z) :
  In g kAvailableSensitivities -> 0 <= e ->
  exists m x,
    noiseVariance (totalGain_of g) e = S754_finite false m x /\
    2 ^ 23 <= Zpos m < 2 ^ 24 /\ -149 <= x <= 104.
Proof.
  intros Hg He.
  pose proof (noise_variance_normal g e Hg He) as H.
  destruct (noiseVariance (totalGain_of g) e) as [s | s | | s m x];
    try discriminate.
  destruct s; try discriminate. cbn [f32_pos_normal] in H.
  repeat (apply andb_prop in H; destruct H as [H ?]).
  exists m, x. split; [reflexivity|].
  apply Z.leb_le in H. apply Z.ltb_lt in H2. apply Z.leb_le in H1.
  apply Z.leb_le in H0. lia.
Qed.

Lemma noise_variance_in_range_witness :
  exists m x,
    noiseVariance (totalGain_of 1600) 77 = S754_finite false m x /\
    2 ^ 23 <= Zpos m < 2 ^ 24 /\ -149 <= x <= 104.
Proof.
  apply (noise_variance_in_range 1600 77).
  - simpl. tauto.
  - lia.
Defined.

(* ================================================================= *)
(** ** The approximate square root, beyond its accuracy *)

Lemma bits_of_f32_range (r : spec_float) :
  - 2 ^ 31 <= bits_of_f32 r < 2 ^ 31.
Proof.
  unfold bits_of_f32, wrap_s32.
  pose proof (Z.mod_pos_bound (f32_bits_unsigned r + 2 ^ 31) (2 ^ 32)
                ltac:(reflexivity)).
  change (2 ^ 32) with 4294967296 in *. change (2 ^ 31) with 2147483648 in *.
  lia.
Qed.

(** X5: for every [float] whatsoever (negative numbers, infinities and NaN
    included) the signed 32-bit addition [(r_i >> 1) + modifier] stays within
    [int32_t]: the function never overflows. *)
Theorem sqrtf_approx_no_overflow (r : spec_float) :
  - 2 ^ 31 <= Z.shiftr (bits_of_f32 r) 1 + modifier < 2 ^ 31 /\
  sqrtf_approx r = f32_of_bits (Z.shiftr (bits_of_f32 r) 1 + modifier).
Proof.
  pose proof (bits_of_f32_range r) as Hb.
  assert (H : - 2 ^ 31 <= Z.shiftr (bits_of_f32 r) 1 + modifier < 2 ^ 31).
  { rewrite Z.shiftr_div_pow2 by lia. change (2 ^ 1) with 2.
    unfold modifier. change (2 ^ 31) with 2147483648 in *.
    Z.div_mod_to_equations. lia. }
  split; [exact H|].
  unfold sqrtf_approx. now rewrite wrap_s32_small.
Qed.

(** X6: on positive normal numbers the result is a positive normal number
    again (never zero, subnormal, infinite or NaN), with an exponent between
    -87 and 40. *)
Theorem sqrtf_approx_closed (r : spec_float) :
  f32_pos_normal r = true ->
  f32_pos_normal (sqrtf_approx r) = true /\
  exists m k, sqrtf_approx r = S754_finite false m k /\ -87 <= k <= 40.
Proof.
  destruct r as [s | s | | s m e]; try discriminate.
  destruct s; try discriminate. cbn [f32_pos_normal].
  intros H. repeat (apply andb_prop in H; destruct H as [H ?]).
  apply Z.leb_le in H. apply Z.ltb_lt in H2. apply Z.leb_le in H1.
  apply Z.leb_le in H0.
  destruct (sqrtf_approx_normal m e (conj H H2) (conj H1 H0))
    as (m' & k & d & E & Hd & Hm' & Hc).
  rewrite E. cbn [f32_pos_normal].
  assert (Hk : -87 <= k <= 40) by lia.
  split.
  - change (2 ^ 23) with 8388608. change (2 ^ 24) with 16777216.
    repeat (apply andb_true_intro; split);
      (apply Z.leb_le || apply Z.ltb_lt); lia.
  - exists m', k. split; [reflexivity | exact Hk].
Qed.

Lemma sqrtf_approx_closed_witness :
  f32_pos_normal (sqrtf_approx (f32_of_Z 9)) = true /\
  exists m k, sqrtf_approx (f32_of_Z 9) = S754_finite false m k /\ -87 <= k <= 40.
Proof. apply (sqrtf_approx_closed (f32_of_Z 9)). reflexivity. Defined.

Section SqrtOrder.

Lemma powerRZ_2_ge_1 (n : Z) : 0 <= n -> (1 <= powerRZ 2 n)%R.
Proof.
  intros Hn. rewrite <- (Z2Nat.id n Hn), <- pow_powerRZ.
  apply pow_R1_Rle. lra.
Qed.

Lemma powerRZ_2_le (a b : Z) : a <= b -> (powerRZ 2 a <= powerRZ 2 b)%R.
Proof.
  intros H. replace b with (a + (b - a)) by lia.
  rewrite powerRZ_add by lra.
  pose proof (powerRZ_2_ge_1 (b - a) ltac:(lia)).
  pose proof (powerRZ_lt 2 a ltac:(lra)). nra.
Qed.

(** Positive normal numbers are ordered as their (exponent, significand)
    pairs, that is, as their bit patterns. *)
Lemma normal_value_lt (m1 m2 : positive) (e1 e2 : Z) :
  8388608 <= Zpos m1 < 16777216 -> 8388608 <= Zpos m2 < 16777216 ->
  e1 * 8388608 + Zpos m1 < e2 * 8388608 + Zpos m2 ->
  (IZR (Zpos m1) * powerRZ 2 e1 < IZR (Zpos m2) * powerRZ 2 e2)%R.
Proof.
  intros H1 H2 H.
  pose proof (powerRZ_lt 2 e1 ltac:(lra)) as P1.
  pose proof (powerRZ_lt 2 e2 ltac:(lra)) as P2.
  assert (A1 : (IZR 8388608 <= IZR (Zpos m1) < IZR 16777216)%R)
    by (split; [apply IZR_le | apply IZR_lt]; lia).
  assert (A2 : (IZR 8388608 <= IZR (Zpos m2) < IZR 16777216)%R)
    by (split; [apply IZR_le | apply IZR_lt]; lia).
  destruct (Z.eq_dec e1 e2) as [-> | Hne].
  - assert (L : (IZR (Zpos m1) < IZR (Zpos m2))%R) by (apply IZR_lt; lia).
    nra.
  - assert (Hlt : e1 + 1 <= e2) by lia.
    pose proof (powerRZ_2_le (e1 + 1) e2 Hlt) as Q.
    rewrite powerRZ_add in Q by lra.
    change (powerRZ 2 1) with (2 * 1)%R in Q. nra.
Qed.

Lemma normal_value_le (m1 m2 : positive) (e1 e2 : Z) :
  8388608 <= Zpos m1 < 16777216 -> 8388608 <= Zpos m2 < 16777216 ->
  e1 * 8388608 + Zpos m1 <= e2 * 8388608 + Zpos m2 ->
  (IZR (Zpos m1) * powerRZ 2 e1 <= IZR (Zpos m2) * powerRZ 2 e2)%R.
Proof.
  intros H1 H2 H.
  destruct (Z.eq_dec (e1 * 8388608 + Zpos m1) (e2 * 8388608 + Zpos m2))
    as [E | N].
  - assert (e1 = e2) by lia. subst e2.
    assert (Zpos m1 = Zpos m2) by lia.
    replace (Zpos m2) with (Zpos m1) by assumption. lra.
  - apply Rlt_le, normal_value_lt; lia.
Qed.

(** X7: the approximation is monotone on positive normal numbers: a larger
    argument never gives a smaller result. *)
Theorem sqrtf_approx_monotone (r1 r2 : spec_float) :
  f32_pos_normal r1 = true -> f32_pos_normal r2 = true ->
  (SF2R r1 <= SF2R r2)%R ->
  (SF2R (sqrtf_approx r1) <= SF2R (sqrtf_approx r2))%R.
Proof.
  destruct r1 as [s1 | s1 | | s1 m1 e1]; try discriminate.
  destruct s1; try discriminate.
  destruct r2 as [s2 | s2 | | s2 m2 e2]; try discriminate.
  destruct s2; try discriminate.
  cbn [f32_pos_normal]. intros H1 H2.
  repeat (apply andb_prop in H1; destruct H1 as [H1 ?]).
  repeat (apply andb_prop in H2; destruct H2 as [H2 ?]).
  repeat match goal with
         | H : (_ <=? _) = true |- _ => apply Z.leb_le in H
         | H : (_ <? _) = true |- _ => apply Z.ltb_lt in H
         end.
  change (2 ^ 23) with 8388608 in *. change (2 ^ 24) with 16777216 in *.
  destruct (sqrtf_approx_normal m1 e1) as (m1' & k1 & d1 & E1 & Hd1 & Hm1 & C1);
    [lia | lia |].
  destruct (sqrtf_approx_normal m2 e2) as (m2' & k2 & d2 & E2 & Hd2 & Hm2 & C2);
    [lia | lia |].
  rewrite E1, E2. unfold SF2R. rewrite !Rmult_1_l. intros Hle.
  assert (Hb : e1 * 8388608 + Zpos m1 <= e2 * 8388608 + Zpos m2).
  { destruct (Z_le_gt_dec (e1 * 8388608 + Zpos m1) (e2 * 8388608 + Zpos m2))
      as [L | G]; [exact L|].
    pose proof (normal_value_lt m2 m1 e2 e1 ltac:(lia) ltac:(lia) ltac:(lia)).
    lra. }
  apply normal_value_le; try lia.
Qed.
End SqrtOrder.

Lemma sqrtf_approx_monotone_witness :
  (SF2R (sqrtf_approx (f32_of_Z 4)) <= SF2R (sqrtf_approx (f32_of_Z 9)))%R.
Proof.
  apply (sqrtf_approx_monotone (f32_of_Z 4) (f32_of_Z 9)).
  - reflexivity.
  - reflexivity.
  - vm_compute f32_of_Z. unfold SF2R. simpl powerRZ. lra.
Defined.

(* ================================================================= *)
(** ** The render stage: colour filter, addressing, random draws *)

(** X8: the colour channel of a pixel depends only on the parities of its
    coordinates: it is [2 * (y mod 2) + x mod 2], one of 0..3, and two pixels
    have the same channel exactly when both coordinates have the same
    parity (the four pixels of a 2x2 tile get four different channels). *)
Theorem bayer_pattern (x y x' y' : Z) :
  bayerChannel x y = 2 * (y mod 2) + x mod 2 /\
  0 <= bayerChannel x y <= 3 /\
  (bayerChannel x y = bayerChannel x' y' <->
   x mod 2 = x' mod 2 /\ y mod 2 = y' mod 2).
Proof.
  assert (L : forall a, Z.land a 1 = a mod 2).
  { intros a. exact (Z.land_ones a 1 ltac:(lia)). }
  unfold bayerChannel. rewrite !L.
  pose proof (Z.mod_pos_bound x 2 ltac:(lia)).
  pose proof (Z.mod_pos_bound y 2 ltac:(lia)).
  pose proof (Z.mod_pos_bound x' 2 ltac:(lia)).
  pose proof (Z.mod_pos_bound y' 2 ltac:(lia)).
  repeat split; lia.
Qed.

Section Addressing.

Variable electrons : Z -> Z -> Z -> Z.
Variable totalGain : spec_float.

Lemma pixel_indices_app (a b : list event) :
  pixel_indices (a ++ b) = pixel_indices a ++ pixel_indices b.
Proof. unfold pixel_indices. apply flat_map_app. Qed.

Lemma row_indices_length (stride y x0 : Z) (n : nat) :
  length (row_indices stride y x0 n) = n.
Proof. unfold row_indices. now rewrite length_map, length_seq. Qed.

Lemma nth_map_seq {A : Type} (f : nat -> A) (n j : nat) (d : A) :
  (j < n)%nat -> nth j (map f (seq 0 n)) d = f j.
Proof.
  intros H.
  rewrite (nth_indep _ d (f 0%nat)) by (rewrite length_map, length_seq; lia).
  rewrite (map_nth f (seq 0 n) 0%nat j). now rewrite seq_nth.
Qed.

Lemma frame_indices_succ (stride y : Z) (n : nat) :
  frame_indices stride y (S n)
  = row_indices stride y 0 (Z.to_nat (fst kResolution))
    ++ frame_indices stride (y + 1) n.
Proof.
  unfold frame_indices. cbn [seq flat_map].
  f_equal; [f_equal; lia|].
  rewrite <- seq_shift, flat_map_concat_map, map_map, <- flat_map_concat_map.
  apply flat_map_ext. intros i. f_equal. lia.
Qed.

(** The sample of column [x] in row [y] is the [(y * 640 + x)]-th of the
    frame. *)
Lemma frame_indices_nth (stride : Z) (rows : nat) :
  forall (y0 : Z) (i j : nat),
    (i < rows)%nat -> (j < Z.to_nat (fst kResolution))%nat ->
    nth (i * Z.to_nat (fst kResolution) + j) (frame_indices stride y0 rows) 0
    = wrap_u32 ((y0 + Z.of_nat i) * stride) + Z.of_nat j.
Proof.
  induction rows as [|rows IH]; intros y0 i j Hi Hj; [lia|].
  rewrite frame_indices_succ.
  destruct i as [|i].
  - rewrite Nat.mul_0_l, Nat.add_0_l, app_nth1
      by (rewrite row_indices_length; exact Hj).
    unfold row_indices. rewrite nth_map_seq by exact Hj.
    replace (y0 + Z.of_nat 0) with y0 by lia. lia.
  - rewrite app_nth2 by (rewrite row_indices_length; lia).
    rewrite row_indices_length.
    replace (S i * Z.to_nat (fst kResolution) + j
             - Z.to_nat (fst kResolution))%nat
      with (i * Z.to_nat (fst kResolution) + j)%nat by lia.
    rewrite IH by lia. do 2 f_equal. lia.
Qed.

Lemma renderRow_indices (y buf stride : Z) (n : nat) :
  forall (x : Z) (w : World),
    let r := renderRow n x y electrons totalGain buf (wrap_u32 (y * stride)) w in
    pixel_indices (fst r) = row_indices stride y x n /\
    draws (snd r) = (draws w + n)%nat /\
    rand_stream (snd r) = rand_stream w /\
    rand_max (snd r) = rand_max w /\ scene (snd r) = scene w.
Proof.
  induction n as [|n IH]; intros x w; cbn [renderRow].
  - cbn [fst snd]. repeat split. lia.
  - unfold std_rand.
    specialize (IH (x + 1)
                   (mkWorld (clock w) (ticks w) (rand_stream w)
                            (S (draws w)) (rand_max w) (scene w))).
    destruct (renderRow n (x + 1) y electrons totalGain buf
                (wrap_u32 (y * stride))
                (mkWorld (clock w) (ticks w) (rand_stream w)
                         (S (draws w)) (rand_max w) (scene w)))
      as [evs w1].
    cbn [fst snd draws rand_stream rand_max scene] in *.
    destruct IH as (Hi & Hd & Hr & Hm & Hs).
    repeat split; try assumption; [|lia].
    cbn [pixel_indices flat_map app].
    fold (pixel_indices evs). rewrite Hi. unfold row_indices.
    cbn [seq map]. f_equal; [f_equal; lia|].
    rewrite <- seq_shift, map_map. apply map_ext. intros j. f_equal. lia.
Qed.

Lemma renderRows_indices (stride fre ct : Z) (n : nat) :
  forall (y cb st : Z) (s : Sensor) (w : World),
    match renderRows n y electrons totalGain stride fre cb ct st s w with
    | (_, _, w', evs) =>
        pixel_indices evs = frame_indices stride y n /\
        draws w' = (draws w + n * Z.to_nat (fst kResolution))%nat /\
        rand_stream w' = rand_stream w /\
        rand_max w' = rand_max w /\ scene w' = scene w
    end.
Proof.
  induction n as [|n IH]; intros y cb st s w.
  - cbn [renderRows]. repeat split. cbn. lia.
  - cbn [renderRows].
    pose proof (renderRow_indices y (mNextCapturedBuffer s) stride
                  (Z.to_nat (fst kResolution)) 0 w) as Hrow.
    destruct (renderRow (Z.to_nat (fst kResolution)) 0 y electrons totalGain
                        (mNextCapturedBuffer s) (wrap_u32 (y * stride)) w)
      as [row w1].
    cbn [fst snd] in Hrow. destruct Hrow as (Hi & Hd & Hr & Hm & Hs).
    assert (Hdue :
      exists due w2,
        (if negb (cb =? NULL) && (Z.land y 63 =? 0)
         then let '(now, w) := systemTime w1 in (fre <=? now, w)
         else (false, w1)) = (due, w2) /\
        draws w2 = draws w1 /\ rand_stream w2 = rand_stream w1 /\
        rand_max w2 = rand_max w1 /\ scene w2 = scene w1).
    { destruct (negb (cb =? NULL) && (Z.land y 63 =? 0)).
      - unfold systemTime. eexists _, _. split; [reflexivity|].
        repeat split.
      - eexists _, _. split; [reflexivity|]. repeat split. }
    destruct Hdue as (due & w2 & -> & Hd2 & Hr2 & Hm2 & Hs2).
    pose proof (frame_indices_succ stride y n) as Hfr.
    destruct due.
    + specialize (IH (y + 1) NULL (wrap_s64 (st + kRowReadoutTime))
                     (publish cb ct s) w2).
      destruct (renderRows n (y + 1) electrons totalGain stride fre NULL ct
                  (wrap_s64 (st + kRowReadoutTime)) (publish cb ct s) w2)
        as [[[cb' s'] w'] evs].
      destruct IH as (Ji & Jd & Jr & Jm & Js).
      rewrite !pixel_indices_app, Hi, Ji, Hfr.
      split; [reflexivity|].
      split; [rewrite Jd, Hd2, Hd; lia|].
      repeat split; congruence.
    + specialize (IH (y + 1) cb (wrap_s64 (st + kRowReadoutTime)) s w2).
      destruct (renderRows n (y + 1) electrons totalGain stride fre cb ct
                  (wrap_s64 (st + kRowReadoutTime)) s w2)
        as [[[cb' s'] w'] evs].
      destruct IH as (Ji & Jd & Jr & Jm & Js).
      rewrite !pixel_indices_app, Hi, Ji, Hfr.
      split; [reflexivity|].
      split; [rewrite Jd, Hd2, Hd; lia|].
      repeat split; congruence.
Qed.

End Addressing.

(** X9: an iteration that latched a buffer writes every sample of the frame
    exactly once, in row-major order, the sample of column [x] in row [y] at
    index [y * stride + x] (the product taken modulo 2^32), and draws exactly
    one random number per sample; an iteration without a buffer writes
    nothing and draws nothing. *)
Theorem frame_addressing (s : Sensor) (w : World) :
  let r := threadLoop s w in
  pixel_indices (trace_of r)
    = (if mNextBuffer s =? NULL then []
       else frame_indices (mNextStride s) 0 (Z.to_nat (snd kResolution))) /\
  draws (world_of r)
    = (if mNextBuffer s =? NULL then draws w
       else (draws w + Z.to_nat (snd kResolution)
                       * Z.to_nat (fst kResolution))%nat) /\
  (mNextBuffer s <> NULL ->
   forall x y : nat,
     (y < Z.to_nat (snd kResolution))%nat ->
     (x < Z.to_nat (fst kResolution))%nat ->
     nth (y * Z.to_nat (fst kResolution) + x) (pixel_indices (trace_of r)) 0
     = wrap_u32 (Z.of_nat y * mNextStride s) + Z.of_nat x).
Proof.
  intros r.
  assert (H12 :
    pixel_indices (trace_of r)
      = (if mNextBuffer s =? NULL then []
         else frame_indices (mNextStride s) 0 (Z.to_nat (snd kResolution))) /\
    draws (world_of r)
      = (if mNextBuffer s =? NULL then draws w
         else (draws w + Z.to_nat (snd kResolution)
                         * Z.to_nat (fst kResolution))%nat));
  [| destruct H12 as [H1 H2]; split; [exact H1|]; split; [exact H2|];
     intros Hn x y Hy Hx; rewrite H1;
     destruct (Z.eqb_spec (mNextBuffer s) NULL); [contradiction|];
     now rewrite frame_indices_nth by assumption ].
  subst r.
  unfold threadLoop, latch, systemTime. cbv beta iota zeta.
  cbn [exposureDuration frameDuration gain nextBuffer stride
       mGotVSync mExposureTime mFrameDuration mGainFactor mNextBuffer
       mNextStride mCapturedBuffer mCaptureTime mStartupTime
       mNextCaptureTime mNextCapturedBuffer
       set_mGotVSync set_mNextBuffer set_mNextCapturedBuffer
       set_mNextCaptureTime clock ticks rand_stream draws rand_max scene].
  destruct (if negb (mNextCapturedBuffer s =? NULL)
            then (mNextCapturedBuffer s, mNextCaptureTime s)
            else (NULL, 0)) as [cb ct].
  destruct (mNextBuffer s =? NULL) eqn:E; cbn [negb].
  - destruct (negb (cb =? NULL));
      unfold trace_of, world_of; cbn [fst snd draws];
      rewrite ?pixel_indices_app;
      match goal with |- context [pacing ?a ?b] =>
        destruct (pacing_cases a b) as [-> | (x & y & ->)] end;
      split; reflexivity.
  - match goal with |- context [renderRows ?n ?y ?el ?tg ?st ?fre ?c ?t ?sim ?s0 ?w0] =>
      pose proof (renderRows_indices el tg st fre t n y c sim s0 w0) as H;
      destruct (renderRows n y el tg st fre c t sim s0 w0)
        as [[[cb' s2] w2] rendered]
    end.
    destruct H as (Hi & Hd & _).
    cbn [draws] in Hd.
    destruct (negb (cb' =? NULL));
      unfold trace_of, world_of; cbn [fst snd draws];
      cbn [pixel_indices flat_map app]; fold (pixel_indices);
      rewrite ?pixel_indices_app, Hi, Hd;
      match goal with |- context [pacing ?a ?b] =>
        destruct (pacing_cases a b) as [-> | (x & y & ->)] end;
      cbn [pixel_indices flat_map app]; rewrite ?app_nil_r;
      split; reflexivity.
Qed.

Lemma frame_addressing_witness :
  let s := setDestinationBuffer 4096 1024 Sensor_new in
  let w := mkWorld (fun n => Z.of_nat n) 0 (fun _ => 0) 0 2147483647
                   (fun _ _ _ _ _ => 0) in
  nth (2 * Z.to_nat (fst kResolution) + 5)
      (pixel_indices (trace_of (threadLoop s w))) 0
  = wrap_u32 (Z.of_nat 2 * mNextStride s) + Z.of_nat 5.
Proof.
  intros s w.
  apply (proj2 (proj2 (frame_addressing s w))).
  - vm_compute. discriminate.
  - vm_compute. lia.
  - vm_compute. lia.
Defined.

(* ================================================================= *)
(** ** The sleep request *)

(** X10: whenever the capture loop sleeps (clock readings and frame
    duration clear of 64-bit overflow), the [timespec] it passes to
    [nanosleep] is well formed, with [0 <= tv_sec] and
    [0 <= tv_nsec < 1000000000]; it amounts to the time left until the frame
    end, which is more than the 2 ms tolerance; and the sleep is the
    iteration's only one. *)
Theorem sleep_request_valid (s : Sensor) (w : World) (tv_sec tv_nsec : Z) :
  clock_in_range w ->
  0 <= mFrameDuration s < 2 ^ 62 ->
  In (EvSleep tv_sec tv_nsec) (trace_of (threadLoop s w)) ->
  0 <= tv_sec /\ 0 <= tv_nsec < 1000000000 /\
  tv_sec * 1000000000 + tv_nsec
    = iterationStart w + mFrameDuration s - workDoneAt s w /\
  timeAccuracy < tv_sec * 1000000000 + tv_nsec /\
  filter is_sleep (trace_of (threadLoop s w)) = [EvSleep tv_sec tv_nsec].
Proof.
  intros Hclk Hd Hin.
  assert (Hf : In (EvSleep tv_sec tv_nsec)
                  (filter is_sleep (trace_of (threadLoop s w)))).
  { apply filter_In. split; [exact Hin | reflexivity]. }
  rewrite threadLoop_sleeps in *.
  pose proof (iterationStart_in_range w Hclk) as Hs.
  assert (Hw : 0 <= workDoneAt s w < 2 ^ 62).
  { unfold workDoneAt.
    specialize (Hclk (ticks (world_of (threadLoop s w)) - 2)%nat).
    rewrite wrap_s64_small; lia. }
  unfold frameEndAt in *.
  set (st := iterationStart w) in *. set (wd := workDoneAt s w) in *.
  rewrite (wrap_s64_small (st + mFrameDuration s)) in * by lia.
  unfold pacing, timeAccuracy in *.
  rewrite !wrap_s64_small in * by lia.
  destruct (Z.ltb_spec wd (st + mFrameDuration s - 2000000)) as [L | L];
    [| destruct Hf].
  destruct Hf as [E | []]. injection E as <- <-.
  set (d := st + mFrameDuration s - wd) in *.
  assert (Hpos : 0 <= d) by (unfold d; lia).
  pose proof (Z.rem_bound_pos d 1000000000 Hpos ltac:(lia)) as Hr.
  pose proof (Z.quot_rem' d 1000000000) as Hq.
  pose proof (Z.quot_pos d 1000000000 Hpos ltac:(lia)) as Hqp.
  repeat split; try lia.
Qed.

Lemma sleep_request_valid_witness :
  let w := mkWorld (fun n => if (n <=? 0)%nat then 1000 else 5001000) 0
                   (fun _ => 0) 0 2147483647 (fun _ _ _ _ _ => 0) in
  0 <= 0 /\ 0 <= 28331760 < 1000000000 /\
  0 * 1000000000 + 28331760
    = iterationStart w + mFrameDuration Sensor_new - workDoneAt Sensor_new w /\
  timeAccuracy < 0 * 1000000000 + 28331760 /\
  filter is_sleep (trace_of (threadLoop Sensor_new w)) = [EvSleep 0 28331760].
Proof.
  intros w.
  apply (sleep_request_valid Sensor_new w 0 28331760).
  - intros n. cbn [clock w]. destruct (n <=? 0)%nat; lia.
  - vm_compute. split; [discriminate | reflexivity].
  - vm_compute. right. left. reflexivity.
Defined.

(* ================================================================= *)
(** ** The handoff slot across calls *)

(** X11: [waitForNewFrame] returns a frame that is already in the slot at
    once, without waiting, so whatever a wait would have returned; and a
    frame published while a wait was timing out or failing is not lost: the
    failed call leaves it in the slot and the next call delivers it. *)
Theorem frame_kept_across_failed_wait (s : Sensor) (reltime res : Z)
    (cs : list concurrent_step) (b t : Z) :
  (mCapturedBuffer s <> NULL ->
   waitForNewFrame reltime res cs s
     = (true, Some (mCaptureTime s), set_mCapturedBuffer NULL s)) /\
  (mCapturedBuffer s = NULL -> res <> OK ->
   slot (during cs s) = (b, t) -> b <> NULL ->
   waitForNewFrame reltime res cs s = (false, None, during cs s) /\
   forall reltime' res' cs',
     waitForNewFrame reltime' res' cs' (during cs s)
       = (true, Some t, set_mCapturedBuffer NULL (during cs s))).
Proof.
  assert (Full : forall s0 rel0 res0 cs0, mCapturedBuffer s0 <> NULL ->
            waitForNewFrame rel0 res0 cs0 s0
              = (true, Some (mCaptureTime s0), set_mCapturedBuffer NULL s0)).
  { intros s0 rel0 res0 cs0 H. unfold waitForNewFrame.
    destruct (Z.eqb_spec (mCapturedBuffer s0) NULL); [contradiction|].
    reflexivity. }
  split; [apply Full|].
  intros HN HO Hslot Hb.
  unfold slot in Hslot. injection Hslot as Hb' Ht'.
  split.
  - destruct (waitForNewFrame_cases reltime res cs s)
      as [(_ & [H | H] & _) | (_ & _ & E)]; try contradiction. exact E.
  - intros reltime' res' cs'. rewrite Full by congruence. now rewrite Ht'.
Qed.

Lemma frame_kept_across_failed_wait_witness :
  waitForNewFrame 1000 TIMED_OUT [LoopReadout 4096 77] Sensor_new
    = (false, None, during [LoopReadout 4096 77] Sensor_new) /\
  forall reltime' res' cs',
    waitForNewFrame reltime' res' cs' (during [LoopReadout 4096 77] Sensor_new)
      = (true, Some 77,
         set_mCapturedBuffer NULL (during [LoopReadout 4096 77] Sensor_new)).
Proof.
  apply (proj2 (frame_kept_across_failed_wait Sensor_new 1000 TIMED_OUT
                  [LoopReadout 4096 77] 4096 77)).
  - reflexivity.
  - vm_compute. discriminate.
  - reflexivity.
  - vm_compute. discriminate.
Defined.

(* ================================================================= *)
(** ** Start-up *)

(** X12: [startUp] returns what starting the thread returned, keeps the
    control parameters and a destination buffer set beforehand, records the
    wall clock as the startup time, and empties both the handoff slot and
    the pipeline, whatever a previous run left there: the first iteration
    hands over nothing and the slot is still empty after it. *)
Theorem startUp_resets_pipeline (run_res : Z) (s : Sensor) (w : World)
    (cs : list client_call) :
  let '(res, s0, w0) := startUp run_res s w in
  let r := threadLoop (calls cs s0) w0 in
  res = run_res /\
  control_of s0 = control_of s /\ mNextBuffer s0 = mNextBuffer s /\
  mStartupTime s0 = iterationStart w /\
  mCapturedBuffer s0 = NULL /\ mNextCapturedBuffer s0 = NULL /\
  readouts (trace_of r) = [] /\
  mCapturedBuffer (sensor_of r) = NULL.
Proof.
  unfold startUp, readyToRun, systemTime. cbv beta iota zeta.
  change (negb (OK =? OK)) with false. cbv iota.
  set (s0 := set_mNextCapturedBuffer NULL _).
  set (w0 := mkWorld _ _ _ _ _ _).
  repeat (split; [reflexivity|]).
  destruct (threadLoop_facts (calls cs s0) w0)
    as (_ & Ha & _ & _ & tail & Etr & _ & _ & _ & Hr & _).
  destruct (calls_private cs s0) as (C1 & _ & _ & _ & C5).
  assert (Hp : pending (mNextCapturedBuffer (calls cs s0))
                       (mNextCaptureTime (calls cs s0)) = []).
  { rewrite C1. reflexivity. }
  split.
  - rewrite Etr. change (readouts (EvVSync :: tail)) with (readouts tail).
    now rewrite Hr.
  - destruct Ha as (_ & _ & _ & _ & _ & _ & _ & _ & _ & Hslot).
    rewrite Hp, C5 in Hslot. unfold slot in Hslot.
    injection Hslot as Hb _. exact Hb.
Qed.

(* ================================================================= *)
(** ** Buffers through the pipeline *)

Lemma calls_keep_buffer (cs : list client_call) :
  forall s : Sensor,
    forallb (fun c => negb (sets_buffer c)) cs = true ->
    mNextBuffer (calls cs s) = mNextBuffer s.
Proof.
  induction cs as [|c cs IH]; intros s H; [reflexivity|].
  cbn [forallb] in H. apply andb_prop in H. destruct H as [Hc Hcs].
  change (calls (c :: cs) s) with (calls cs (call c s)).
  rewrite IH by exact Hcs. destruct c; try reflexivity. discriminate.
Qed.

(** X13: a destination buffer is used for one frame only.  Unless a client
    sets a buffer again, the iteration after the one that latched it writes
    no pixel and latches nothing. *)
Theorem destination_buffer_used_once (s : Sensor) (w : World)
    (cs : list client_call) :
  forallb (fun c => negb (sets_buffer c)) cs = true ->
  let r1 := threadLoop s w in
  let r2 := threadLoop (calls cs (sensor_of r1)) (world_of r1) in
  mNextBuffer (sensor_of r1) = NULL /\
  filter is_pixel (trace_of r2) = [] /\
  mNextCapturedBuffer (sensor_of r2) = NULL.
Proof.
  intros Hcs r1 r2.
  destruct (threadLoop_facts s w) as (_ & Ha & _). fold r1 in Ha.
  destruct Ha as (_ & A2 & _).
  pose proof (calls_keep_buffer cs (sensor_of r1) Hcs) as Hk.
  rewrite A2 in Hk.
  destruct (threadLoop_facts (calls cs (sensor_of r1)) (world_of r1))
    as (_ & Hb & _ & _ & tail & Etr & _ & _ & Hn & _).
  fold r2 in Hb, Etr.
  destruct Hb as (_ & _ & B3 & _).
  rewrite Hk in Hn, B3. change (NULL =? NULL) with true in Hn.
  split; [exact A2|]. split; [|exact B3].
  rewrite Etr. cbn [filter is_pixel]. now apply length_zero_iff_nil.
Qed.

Lemma destination_buffer_used_once_witness :
  let s := setDestinationBuffer 4096 640 Sensor_new in
  let w := mkWorld (fun n => Z.of_nat n) 0 (fun _ => 0) 0 2147483647
                   (fun _ _ _ _ _ => 0) in
  let r1 := threadLoop s w in
  let r2 := threadLoop (calls [SetSensitivity 200; SetExposureTime 1000000]
                              (sensor_of r1)) (world_of r1) in
  mNextBuffer (sensor_of r1) = NULL /\
  filter is_pixel (trace_of r2) = [] /\
  mNextCapturedBuffer (sensor_of r2) = NULL.
Proof.
  intros s w.
  apply (destination_buffer_used_once s w
           [SetSensitivity 200; SetExposureTime 1000000]).
  reflexivity.
Defined.

Section Runs.

Lemma call_control (c : client_call) (s1 s2 : Sensor) :
  control_of s1 = control_of s2 ->
  control_of (call c s1) = control_of (call c s2).
Proof.
  unfold control_of. intros H. injection H as H1 H2 H3 H4.
  destruct c; cbn; congruence.
Qed.

Lemma calls_control (cs : list client_call) :
  forall s1 s2 : Sensor,
    control_of s1 = control_of s2 ->
    control_of (calls cs s1) = control_of (calls cs s2).
Proof.
  induction cs as [|c cs IH]; intros s1 s2 H; [exact H|].
  change (calls (c :: cs) ?s) with (calls cs (call c s)).
  apply IH, call_control, H.
Qed.

Lemma calls_app (cs1 cs2 : list client_call) (s : Sensor) :
  calls (cs1 ++ cs2) s = calls cs2 (calls cs1 s).
Proof. unfold calls. apply fold_left_app. Qed.

Lemma threadLoop_control (s : Sensor) (w : World) :
  control_of (sensor_of (threadLoop s w)) = control_of s.
Proof.
  destruct (threadLoop_facts s w) as (_ & Ha & _).
  destruct Ha as (_ & _ & _ & _ & _ & A6 & A7 & A8 & A9 & _).
  unfold control_of. congruence.
Qed.

(** X14: frames leave the pipeline in the order they entered it, each
    exactly once.  Over any run, the frames handed over, followed by the
    frame still pending at the end, are the frame pending at the start
    followed by the buffers the iterations latched (those that were not
    NULL), each with the timestamp its iteration gave it. *)
Theorem handover_is_fifo (steps : list (list client_call)) :
  forall (s : Sensor) (w : World),
    let '(its, s', w') := run steps s w in
    flat_map (fun it => readouts (it_trace it)) its
      ++ pending (mNextCapturedBuffer s') (mNextCaptureTime s')
    = pending (mNextCapturedBuffer s) (mNextCaptureTime s)
      ++ flat_map (fun it => pending (it_buffer it) (it_time it)) its.
Proof.
  induction steps as [|cs steps IH]; intros s w.
  - cbn [run flat_map]. now rewrite app_nil_r.
  - cbn [run].
    set (r := threadLoop (calls cs s) w).
    specialize (IH (sensor_of r) (world_of r)).
    destruct (run steps (sensor_of r) (world_of r)) as [[its s'] w'].
    cbn [flat_map it_trace it_buffer it_time].
    rewrite <- app_assoc, IH.
    destruct (threadLoop_facts (calls cs s) w)
      as (_ & _ & _ & _ & tail & Etr & _ & _ & _ & Hr & _).
    fold r in Etr. rewrite Etr.
    change (readouts (EvVSync :: tail)) with (readouts tail).
    destruct (calls_private cs s) as (C1 & C2 & _).
    rewrite Hr, C1, C2. now rewrite app_assoc.
Qed.

(** X15: the capture loop only reads the control parameters.  After any
    run, exposure time, frame duration, gain and stride are what the
    clients' calls alone, made in the same order, would have left. *)
Theorem run_keeps_control (steps : list (list client_call)) :
  forall (s : Sensor) (w : World),
    let '(_, s', _) := run steps s w in
    control_of s' = control_of (calls (concat steps) s).
Proof.
  induction steps as [|cs steps IH]; intros s w.
  - reflexivity.
  - cbn [run concat].
    set (r := threadLoop (calls cs s) w).
    specialize (IH (sensor_of r) (world_of r)).
    destruct (run steps (sensor_of r) (world_of r)) as [[its s'] w'].
    rewrite IH, calls_app. apply calls_control.
    apply threadLoop_control.
Qed.

End Runs.

(* ================================================================= *)
(** ** When the pending frame is handed over *)

Section Handover.

Variable electrons : Z -> Z -> Z -> Z.
Variable totalGain : spec_float.

Lemma render_events_without_readout (buf : Z) (tr : list event) :
  forallb (render_event buf) tr = true -> readouts tr = [] ->
  forallb (pixel_of buf) tr = true /\ filter is_pixel tr = tr.
Proof.
  induction tr as [|e tr IH]; cbn [forallb]; [split; reflexivity|].
  intros H Hr. apply andb_prop in H. destruct H as [He Htr].
  destruct e; cbn in *; try discriminate.
  destruct (IH Htr Hr) as [IH1 IH2]. now rewrite He, IH1, IH2.
Qed.

(** While the wall clock stays before the readout end, the render loop
    keeps the pending frame to itself. *)
Lemma renderRows_keeps_pending (stride fre ct : Z) (n : nat) :
  forall (y cb st : Z) (s : Sensor) (w : World),
    (forall k, wrap_s64 (clock w k) < fre) ->
    match renderRows n y electrons totalGain stride fre cb ct st s w with
    | (cb', s', w', evs) =>
        cb' = cb /\ s' = s /\ clock w' = clock w /\
        forallb (pixel_of (mNextCapturedBuffer s)) evs = true /\
        length evs = (n * Z.to_nat (fst kResolution))%nat
    end.
Proof.
  induction n as [|n IH]; intros y cb st s w Hclk.
  - cbn [renderRows]. repeat split.
  - cbn [renderRows].
    pose proof (renderRow_spec electrons totalGain y (mNextCapturedBuffer s)
                  (wrap_u32 (y * stride)) (Z.to_nat (fst kResolution)) 0 w)
      as Hrow.
    destruct (renderRow (Z.to_nat (fst kResolution)) 0 y electrons totalGain
                        (mNextCapturedBuffer s) (wrap_u32 (y * stride)) w)
      as [row w1].
    cbn [fst snd] in Hrow. destruct Hrow as (Hpx & Hlen & Hc1 & _).
    assert (Hdue :
      exists w2,
        (if negb (cb =? NULL) && (Z.land y 63 =? 0)
         then let '(now, w) := systemTime w1 in (fre <=? now, w)
         else (false, w1)) = (false, w2) /\ clock w2 = clock w).
    { destruct (negb (cb =? NULL) && (Z.land y 63 =? 0)).
      - unfold systemTime.
        assert (Hf : (fre <=? wrap_s64 (clock w1 (ticks w1))) = false)
          by (apply Z.leb_gt; rewrite Hc1; apply Hclk).
        rewrite Hf. eexists. split; [reflexivity | exact Hc1].
      - eexists. split; [reflexivity | exact Hc1]. }
    destruct Hdue as (w2 & -> & Hc2).
    specialize (IH (y + 1) cb (wrap_s64 (st + kRowReadoutTime)) s w2).
    destruct (renderRows n (y + 1) electrons totalGain stride fre cb ct
                (wrap_s64 (st + kRowReadoutTime)) s w2)
      as [[[cb' s'] w'] evs].
    destruct IH as (J1 & J2 & J3 & J4 & J5).
    { intros k. rewrite Hc2. apply Hclk. }
    repeat split; try congruence.
    + cbn [app]. now rewrite forallb_app, Hpx, J4.
    + cbn [app]. rewrite length_app, Hlen, J5. lia.
Qed.

(** Once the wall clock is past the readout end, the pending frame is
    handed over after the first row the check is made on. *)
Lemma renderRows_hands_over_first (stride fre ct : Z) (n : nat) :
  forall (y cb st : Z) (s : Sensor) (w : World),
    cb <> NULL -> Z.land y 63 = 0 ->
    (forall k, (ticks w <= k)%nat -> fre <= wrap_s64 (clock w k)) ->
    match renderRows (S n) y electrons totalGain stride fre cb ct st s w with
    | (cb', s', w', evs) =>
        exists row rest,
          evs = row ++ EvReadout cb ct :: rest /\
          cb' = NULL /\
          forallb (pixel_of (mNextCapturedBuffer s)) row = true /\
          length row = Z.to_nat (fst kResolution) /\
          forallb (pixel_of (mNextCapturedBuffer s)) rest = true /\
          length rest = (n * Z.to_nat (fst kResolution))%nat
    end.
Proof.
  intros y cb st s w Hcb Hy Hclk. cbn [renderRows].
  pose proof (renderRow_spec electrons totalGain y (mNextCapturedBuffer s)
                (wrap_u32 (y * stride)) (Z.to_nat (fst kResolution)) 0 w)
    as Hrow.
  destruct (renderRow (Z.to_nat (fst kResolution)) 0 y electrons totalGain
                      (mNextCapturedBuffer s) (wrap_u32 (y * stride)) w)
    as [row w1].
  cbn [fst snd] in Hrow. destruct Hrow as (Hpx & Hlen & Hc1 & Ht1).
  destruct (Z.eqb_spec cb NULL) as [|_]; [contradiction|].
  rewrite Hy. cbn [negb andb Z.eqb]. unfold systemTime.
  assert (Hd : (fre <=? wrap_s64 (clock w1 (ticks w1))) = true).
  { apply Z.leb_le. rewrite Hc1, Ht1. apply Hclk. lia. }
  rewrite Hd.
  match goal with |- context [renderRows n ?y1 _ _ _ _ ?c ?t ?sim ?s0 ?w0] =>
    pose proof (renderRows_spec electrons totalGain stride fre t n y1 c sim s0 w0)
      as H;
    destruct (renderRows n y1 electrons totalGain stride fre c t sim s0 w0)
      as [[[cb' s'] w'] evs]
  end.
  destruct H as (Hev & Hcnt & Hro & _).
  cbn [publish mNextCapturedBuffer set_mCaptureTime set_mCapturedBuffer] in Hev.
  assert (Hnil : readouts evs = [] /\ pending cb' ct = []).
  { change (pending NULL ct) with (@nil (Z * Z)) in Hro.
    now apply app_eq_nil in Hro. }
  destruct Hnil as [Hnil Hpend].
  destruct (render_events_without_readout _ _ Hev Hnil) as [Hall Hfil].
  exists row, evs. repeat split; try assumption.
  - unfold pending in Hpend.
    destruct (Z.eqb_spec cb' NULL); [assumption | discriminate].
  - rewrite <- Hfil. exact Hcnt.
Qed.

End Handover.

Lemma pixels_then_sleep (buf : Z) (pre post p : list event) (ev : event) :
  forallb (pixel_of buf) pre = true ->
  forallb (pixel_of buf) post = true ->
  is_sleep ev = false ->
  filter is_sleep (EvVSync :: pre ++ ev :: post ++ p) = filter is_sleep p.
Proof.
  intros Hpre Hpost Hev.
  cbn [filter is_sleep]. rewrite filter_app. cbn [filter]. rewrite Hev.
  rewrite filter_app.
  rewrite (render_events_no_sleep buf pre (pixels_are_render_events _ _ Hpre)).
  rewrite (render_events_no_sleep buf post (pixels_are_render_events _ _ Hpost)).
  reflexivity.
Qed.

(** X16: where in the iteration the pending frame is handed over.  With a
    frame pending and a new buffer latched: if the wall clock stays before
    the readout end (iteration start + kRowReadoutTime * rows) throughout,
    the handover comes after the last pixel of the new frame; if the clock
    is past the readout end from the first check on, it comes after exactly
    one row of pixels, and the other 479 rows follow it.  In both cases the
    sleep, if any, ends the iteration. *)
Theorem handover_position (s : Sensor) (w : World) :
  mNextCapturedBuffer s <> NULL -> mNextBuffer s <> NULL ->
  let r := threadLoop s w in
  let readoutEnd :=
    wrap_s64 (iterationStart w + kRowReadoutTime * snd kResolution) in
  let handover := EvReadout (mNextCapturedBuffer s) (mNextCaptureTime s) in
  ((forall k, wrap_s64 (clock w k) < readoutEnd) ->
   exists pixels,
     trace_of r
       = EvVSync :: pixels ++ handover :: filter is_sleep (trace_of r) /\
     forallb (pixel_of (mNextBuffer s)) pixels = true /\
     length pixels
       = (Z.to_nat (snd kResolution) * Z.to_nat (fst kResolution))%nat) /\
  ((forall k, (ticks w < k)%nat -> readoutEnd <= wrap_s64 (clock w k)) ->
   exists row rest,
     trace_of r
       = EvVSync :: row ++ handover :: rest
                 ++ filter is_sleep (trace_of r) /\
     forallb (pixel_of (mNextBuffer s)) row = true /\
     length row = Z.to_nat (fst kResolution) /\
     forallb (pixel_of (mNextBuffer s)) rest = true /\
     length rest
       = ((Z.to_nat (snd kResolution) - 1)
          * Z.to_nat (fst kResolution))%nat).
Proof.
  intros Hcb Hnb r readoutEnd handover.
  subst r handover. unfold threadLoop, latch, systemTime. cbv beta iota zeta.
  cbn [exposureDuration frameDuration gain nextBuffer stride
       mGotVSync mExposureTime mFrameDuration mGainFactor mNextBuffer
       mNextStride mCapturedBuffer mCaptureTime mStartupTime
       mNextCaptureTime mNextCapturedBuffer
       set_mGotVSync set_mNextBuffer set_mNextCapturedBuffer
       set_mNextCaptureTime clock ticks rand_stream draws rand_max scene].
  fold (iterationStart w). fold readoutEnd.
  destruct (Z.eqb_spec (mNextCapturedBuffer s) NULL) as [|_]; [contradiction|].
  destruct (Z.eqb_spec (mNextBuffer s) NULL) as [|_]; [contradiction|].
  cbn [negb].
  match goal with |- context [renderRows _ 0 ?el ?tg ?st _ ?c ?t ?sim ?s0 ?w0] =>
    set (el0 := el); set (tg0 := tg); set (sim0 := sim);
    set (s1 := s0); set (w1 := w0)
  end.
  assert (Hbuf : mNextCapturedBuffer s1 = mNextBuffer s) by reflexivity.
  split.
  - intros Hclk.
    pose proof (renderRows_keeps_pending el0 tg0 (mNextStride s) readoutEnd
                  (mNextCaptureTime s) (Z.to_nat (snd kResolution)) 0
                  (mNextCapturedBuffer s) sim0 s1 w1 Hclk) as H.
    destruct (renderRows _ _ _ _ _ _ _ _ _ _ _) as [[[cb' s2] w2] evs].
    destruct H as (-> & -> & _ & Hall & Hlen).
    destruct (Z.eqb_spec (mNextCapturedBuffer s) NULL) as [|_];
      [contradiction|].
    cbn [negb]. unfold trace_of. cbn [snd].
    rewrite Hbuf in Hall. cbn [app].
    match goal with |- context [pacing ?a ?b] =>
      pose proof (pixels_then_sleep (mNextBuffer s) evs [] (pacing a b)
                    (EvReadout (mNextCapturedBuffer s) (mNextCaptureTime s))
                    Hall eq_refl eq_refl) as Hs;
      pose proof (proj1 (proj2 (proj2 (proj2 (pacing_trace a b))))) as Hp
    end.
    cbn [app] in Hs. cbv zeta in Hp. rewrite Hs, Hp.
    exists evs. repeat split; assumption.
  - intros Hclk.
    change (Z.to_nat (snd kResolution)) with (S 479).
    pose proof (renderRows_hands_over_first el0 tg0 (mNextStride s) readoutEnd
                  (mNextCaptureTime s) 479 0 (mNextCapturedBuffer s) sim0 s1
                  w1 Hcb eq_refl) as H.
    destruct (renderRows _ _ _ _ _ _ _ _ _ _ _) as [[[cb' s2] w2] evs].
    destruct H as (row & rest & -> & -> & Hrow & Hlr & Hrest & Hlrest).
    { intros k Hk. apply Hclk. subst w1. cbn [ticks] in Hk. lia. }
    change (negb (NULL =? NULL)) with false. cbv iota.
    unfold trace_of. cbn [snd app].
    rewrite Hbuf in Hrow, Hrest.
    rewrite <- !app_assoc. cbn [app].
    match goal with |- context [pacing ?a ?b] =>
      pose proof (pixels_then_sleep (mNextBuffer s) row rest (pacing a b)
                    (EvReadout (mNextCapturedBuffer s) (mNextCaptureTime s))
                    Hrow Hrest eq_refl) as Hs;
      pose proof (proj1 (proj2 (proj2 (proj2 (pacing_trace a b))))) as Hp
    end.
    cbv zeta in Hp. rewrite Hs, Hp.
    exists row, rest. repeat split; assumption.
Qed.

Lemma handover_position_witness :
  let s := set_mNextCaptureTime 77
             (set_mNextCapturedBuffer 4096
                (setDestinationBuffer 8192 640 Sensor_new)) in
  let slow := mkWorld (fun _ => 1000) 0 (fun _ => 0) 0 2147483647
                      (fun _ _ _ _ _ => 0) in
  let fast := mkWorld (fun n => if (n <=? 0)%nat then 1000 else 1000000000) 0
                      (fun _ => 0) 0 2147483647 (fun _ _ _ _ _ => 0) in
  (exists pixels,
     trace_of (threadLoop s slow)
       = EvVSync :: pixels ++ EvReadout 4096 77
                 :: filter is_sleep (trace_of (threadLoop s slow)) /\
     forallb (pixel_of 8192) pixels = true /\
     length pixels
       = (Z.to_nat (snd kResolution) * Z.to_nat (fst kResolution))%nat) /\
  (exists row rest,
     trace_of (threadLoop s fast)
       = EvVSync :: row ++ EvReadout 4096 77 :: rest
                 ++ filter is_sleep (trace_of (threadLoop s fast)) /\
     forallb (pixel_of 8192) row = true /\
     length row = Z.to_nat (fst kResolution) /\
     forallb (pixel_of 8192) rest = true /\
     length rest
       = ((Z.to_nat (snd kResolution) - 1)
          * Z.to_nat (fst kResolution))%nat).
Proof.
  intros s slow fast.
  assert (H1 : mNextCapturedBuffer s <> NULL) by (vm_compute; discriminate).
  assert (H2 : mNextBuffer s <> NULL) by (vm_compute; discriminate).
  split.
  - apply (proj1 (handover_position s slow H1 H2)).
    intros k. vm_compute. reflexivity.
  - apply (proj2 (handover_position s fast H1 H2)).
    intros k Hk. destruct k as [|k]; [lia|]. vm_compute. discriminate.
Defined.
